(** * streamVision: the user mutations of the GraphQL server

    A shallow embedding of [src/server/src/schema/mutations/user.ts]:
    the resolvers CREATE_USER, LOGIN, DELETE_USER, UPDATE_USER_PASSWORD,
    UPDATE_USER, RESET_USER and CHECK_VERIFICATION_CODE, written in a
    small state-and-exception monad over the two tables they touch
    (Users and VerificationCode), and of the signup request the client
    form of [src/client/src/components/header.tsx] sends, followed by
    the properties of the authentication flow. *)

From Stdlib Require Import List String Ascii Bool Arith Lia.
Import ListNotations.
Local Open Scope string_scope.
Local Open Scope bool_scope.

(* ================================================================== *)
(** ** JavaScript values reaching the resolvers *)

(** A nullable GraphQL argument ([GraphQLString], [GraphQLID],
    [GraphQLBoolean] without [!]): [None] is an argument that was not
    supplied. *)
Definition arg (A : Type) := option A.

(** [if (x)] on a string argument: neither absent nor the empty string. *)
Definition truthy (a : arg string) : bool :=
  match a with
  | Some s => negb (s =? "")
  | None => false
  end.

(** [if (x)] on a boolean argument. *)
Definition truthyb (a : arg bool) : bool :=
  match a with
  | Some b => b
  | None => false
  end.

(** [a != b] on two string arguments (absent values are equal to each
    other and to no string). *)
Definition loose_neq (a b : arg string) : bool :=
  match a, b with
  | Some x, Some y => negb (x =? y)
  | None, None => false
  | _, _ => true
  end.

(** [a === b] on two string arguments. *)
Definition strict_eq (a b : arg string) : bool :=
  match a, b with
  | Some x, Some y => x =? y
  | None, None => true
  | _, _ => false
  end.

(** The value written into a text column. *)
Definition str (a : arg string) : string :=
  match a with
  | Some s => s
  | None => ""
  end.

(** A criterion [{ col: a }] of a [where] clause, on a row whose column
    holds [col].  The columns hold text, never NULL.  For a supplied
    value this is the comparison the ORM makes.  What the ORM does
    with an absent value is not part of the sources and differs from
    one release to the next; the model takes it to select no row, and
    the properties below are stated for supplied values wherever the
    outcome would turn on that choice. *)
Definition where_eq (col : string) (a : arg string) : bool :=
  match a with
  | Some s => col =? s
  | None => false
  end.

Definition where_id (col : nat) (a : arg nat) : bool :=
  match a with
  | Some n => Nat.eqb col n
  | None => false
  end.

(* ================================================================== *)
(** ** Entities *)

(** A row of the Users table. *)
Record User := mkUser {
  id : nat;
  fullName : string;
  userName : string;
  email : string;
  password : string;      (* the bcrypt hash *)
  birthday : string;
  isAdmin : bool
}.

(** A row of the VerificationCode table, as RESET_USER inserts it. *)
Record VerifCode := mkVerifCode {
  vc_email : string;
  vc_code : string
}.

(** A pending call of [removeExpiredAuth]. *)
Record Timer := mkTimer {
  t_email : string;
  t_code : string;
  t_delay : nat
}.

(** A message handed to the mail transport. *)
Record Mail := mkMail {
  mail_from : string;
  mail_to : string;
  mail_subject : string;
  mail_html : string
}.

(** The payload LOGIN signs. *)
Record Claims := mkClaims {
  c_id : nat;
  c_fullName : string;
  c_email : string;
  c_username : string;
  c_isAdmin : bool
}.

(** [jwt.sign(payload, key, { expiresIn })]: a token is the payload
    together with the key it was signed with and its lifetime. *)
Inductive Token := jwt_sign (payload : Claims) (key : string) (expiresIn : string).

Definition jwt_decode (t : Token) : Claims :=
  match t with jwt_sign p _ _ => p end.

Definition jwt_key (t : Token) : string :=
  match t with jwt_sign _ k _ => k end.

Definition jwt_expiresIn (t : Token) : string :=
  match t with jwt_sign _ _ e => e end.

(** The object [updated_usr] of UPDATE_USER: each key is set or not. *)
Record UserPatch := mkPatch {
  p_userName : option string;
  p_fullName : option string;
  p_email : option string;
  p_password : option string;
  p_birthday : option string
}.

Definition empty_patch : UserPatch := mkPatch None None None None None.

Definition key_count {A : Type} (o : option A) : nat :=
  match o with Some _ => 1 | None => 0 end.

(** [Object.keys(updated_usr).length] *)
Definition keys_length (p : UserPatch) : nat :=
  key_count (p_userName p) + key_count (p_fullName p) + key_count (p_email p)
  + key_count (p_password p) + key_count (p_birthday p).

Definition or_else {A : Type} (o : option A) (d : A) : A :=
  match o with Some x => x | None => d end.

(** The effect of an SQL UPDATE with the set keys of [p] on one row. *)
Definition apply_patch (p : UserPatch) (u : User) : User :=
  mkUser (id u)
         (or_else (p_fullName p) (fullName u))
         (or_else (p_userName p) (userName u))
         (or_else (p_email p) (email u))
         (or_else (p_password p) (password u))
         (or_else (p_birthday p) (birthday u))
         (isAdmin u).

(* ================================================================== *)
(** ** What the resolvers import *)

(** The helpers of [../../utils] and the bcrypt primitives.  The format
    predicates are kept abstract; the salt bcrypt draws and the
    identifier [generateId] produces are functions of an entropy
    counter kept in the world. *)
Class Externals := {
  validEmail : string -> bool;
  validFullName : string -> bool;
  validUserName : string -> bool;
  validBirthday : string -> bool;
  special : ascii -> bool;
  bcrypt_hash : string -> nat -> string;
  bcrypt_compare : string -> string -> bool;
  generateId : nat -> string
}.

Definition is_upper (c : ascii) : bool :=
  Nat.leb 65 (nat_of_ascii c) && Nat.leb (nat_of_ascii c) 90.

Definition is_lower (c : ascii) : bool :=
  Nat.leb 97 (nat_of_ascii c) && Nat.leb (nat_of_ascii c) 122.

Definition is_digit (c : ascii) : bool :=
  Nat.leb 48 (nat_of_ascii c) && Nat.leb (nat_of_ascii c) 57.

(** A format predicate applied to an argument; an absent value fails. *)
Definition check (valid : string -> bool) (a : arg string) : bool :=
  match a with
  | Some s => valid s
  | None => false
  end.

Section Utils.
Context {E : Externals}.

Definition checkValidEmail := check validEmail.
Definition checkValidFullName := check validFullName.
Definition checkValidUserName := check validUserName.
Definition checkValidBirthday := check validBirthday.

(** Modelled from the spec: [checkValidPassword] of [../../utils],
    which is not among the sources: "password strength (length >= 8,
    upper/lower/digit/special)". *)
Definition strong (s : string) : bool :=
  let cs := list_ascii_of_string s in
  Nat.leb 8 (String.length s)
  && existsb is_upper cs && existsb is_lower cs
  && existsb is_digit cs && existsb special cs.

Definition checkValidPassword := check strong.
End Utils.

(* ================================================================== *)
(** ** The world and the resolver monad *)

Record World := mkWorld {
  users : list User;
  next_id : nat;                       (* the next generated primary key *)
  codes : list VerifCode;
  timers : list Timer;
  outbox : list Mail;
  entropy : nat;
  ACCESS_TOKEN_SECRET : option string  (* process.env *)
}.

Definition set_users (f : list User -> list User) (w : World) : World :=
  mkWorld (f (users w)) (next_id w) (codes w) (timers w) (outbox w)
          (entropy w) (ACCESS_TOKEN_SECRET w).

Definition set_next_id (n : nat) (w : World) : World :=
  mkWorld (users w) n (codes w) (timers w) (outbox w)
          (entropy w) (ACCESS_TOKEN_SECRET w).

Definition set_codes (f : list VerifCode -> list VerifCode) (w : World) : World :=
  mkWorld (users w) (next_id w) (f (codes w)) (timers w) (outbox w)
          (entropy w) (ACCESS_TOKEN_SECRET w).

Definition set_timers (f : list Timer -> list Timer) (w : World) : World :=
  mkWorld (users w) (next_id w) (codes w) (f (timers w)) (outbox w)
          (entropy w) (ACCESS_TOKEN_SECRET w).

Definition set_outbox (f : list Mail -> list Mail) (w : World) : World :=
  mkWorld (users w) (next_id w) (codes w) (timers w) (f (outbox w))
          (entropy w) (ACCESS_TOKEN_SECRET w).

Definition set_entropy (n : nat) (w : World) : World :=
  mkWorld (users w) (next_id w) (codes w) (timers w) (outbox w)
          n (ACCESS_TOKEN_SECRET w).

(** How an [async resolve] ends. *)
Inductive Outcome (A : Type) :=
| Resolved (a : A)
| Rejected (message : string).

Arguments Resolved {A} a.
Arguments Rejected {A} message.

(** A resolver: from the world before the call to its outcome and the
    world it leaves behind.  A [throw] leaves the world as the writes
    before it made it. *)
Definition Async (A : Type) := World -> Outcome A * World.

Definition ret {A : Type} (a : A) : Async A := fun w => (Resolved a, w).

Definition throw {A : Type} (message : string) : Async A :=
  fun w => (Rejected message, w).

Definition bind {A B : Type} (m : Async A) (k : A -> Async B) : Async B :=
  fun w =>
    match m w with
    | (Resolved a, w') => k a w'
    | (Rejected e, w') => (Rejected e, w')
    end.

Declare Scope async_scope.
Delimit Scope async_scope with async.

Notation "x <- m ;; k" := (bind m (fun x => k))
  (at level 61, m at next level, right associativity) : async_scope.
Notation "m ;; k" := (bind m (fun _ => k))
  (at level 61, right associativity) : async_scope.

Local Open Scope async_scope.

(** [if (c) throw new Error(message);] *)
Definition throw_if (c : bool) (message : string) : Async unit :=
  if c then throw message else ret tt.

Definition rejected {A : Type} (o : Outcome A) : bool :=
  match o with Rejected _ => true | Resolved _ => false end.

(* ================================================================== *)
(** ** The two repositories *)

Module Users.
Definition findOne (cond : User -> bool) : Async (option User) :=
  fun w => (Resolved (find cond (users w)), w).

(** INSERT of the six columns the resolver supplies; the key is
    generated. *)
Definition insert (fullName userName email password birthday : string)
           (isAdmin : bool) : Async unit :=
  fun w =>
    let u := mkUser (next_id w) fullName userName email password birthday isAdmin in
    (Resolved tt, set_next_id (S (next_id w)) (set_users (fun us => (us ++ [u])%list) w)).

(** UPDATE ... WHERE: the number of rows affected is returned. *)
Definition update (cond : User -> bool) (p : UserPatch) : Async nat :=
  fun w =>
    (Resolved (List.length (filter cond (users w))),
     set_users (map (fun u => if cond u then apply_patch p u else u)) w).

Definition delete (cond : User -> bool) : Async unit :=
  fun w => (Resolved tt, set_users (filter (fun u => negb (cond u))) w).
End Users.

Module VerificationCode.
Definition findOne (cond : VerifCode -> bool) : Async (option VerifCode) :=
  fun w => (Resolved (find cond (codes w)), w).

Definition insert (email code : string) : Async unit :=
  fun w => (Resolved tt, set_codes (fun cs => (cs ++ [mkVerifCode email code])%list) w).

Definition delete (cond : VerifCode -> bool) : Async unit :=
  fun w => (Resolved tt, set_codes (filter (fun c => negb (cond c))) w).
End VerificationCode.

(* ================================================================== *)
(** ** Library calls with effects *)

Module bcrypt.
(** [bcrypt.hash(data, 10)]: draws a salt; rejects a value that is
    not a string. *)
Definition hash {E : Externals} (data : arg string) : Async string :=
  fun w =>
    match data with
    | Some s => (Resolved (bcrypt_hash s (entropy w)), set_entropy (S (entropy w)) w)
    | None => (Rejected "Illegal arguments: undefined, number", w)
    end.

(** [bcrypt.compare(data, hash)] *)
Definition compare {E : Externals} (data : arg string) (hash : string) : Async bool :=
  match data with
  | Some s => ret (bcrypt_compare s hash)
  | None => throw "Illegal arguments: undefined, string"
  end.
End bcrypt.

(** [generateId()] of [../../utils]: an identifier drawn from the
    entropy of the world. *)
Definition generateId_call {E : Externals} : Async string :=
  fun w => (Resolved (generateId (entropy w)), set_entropy (S (entropy w)) w).

(** Modelled from the spec: [removeExpiredAuth] of [../../utils], which
    is not among the sources: "schedules automatic deletion after a
    fixed delay (550 time units) to bound code lifetime even if
    unused".  The call registers a deferred task and returns at once. *)
Definition removeExpiredAuth (email code : string) (delay : nat) : Async unit :=
  fun w => (Resolved tt, set_timers (fun ts => (ts ++ [mkTimer email code delay])%list) w).

(** Modelled from the spec: the deferred task of [removeExpiredAuth]
    when its delay has run out: it deletes the code it was registered
    for and leaves the list of pending tasks. *)
Definition timer_eqb (a b : Timer) : bool :=
  (t_email a =? t_email b) && (t_code a =? t_code b) && Nat.eqb (t_delay a) (t_delay b).

Definition expire (t : Timer) : Async unit :=
  (fun w => (Resolved tt, set_timers (filter (fun t' => negb (timer_eqb t t'))) w)) ;;
  VerificationCode.delete
    (fun c => (vc_email c =? t_email t) && (vc_code c =? t_code t)).

(** [client.sendMail(message, callback)]: the message is handed over;
    the callback only logs. *)
Definition sendMail (m : Mail) : Async unit :=
  fun w => (Resolved tt, set_outbox (fun ms => (ms ++ [m])%list) w).

(** [process.env.ACCESS_TOKEN_SECRET || "secret_key"] *)
Definition signing_key : Async string :=
  fun w =>
    (Resolved (if truthy (ACCESS_TOKEN_SECRET w)
               then str (ACCESS_TOKEN_SECRET w) else "secret_key"), w).

Definition present {A : Type} (o : option A) : bool :=
  match o with Some _ => true | None => false end.

(* ================================================================== *)
(** ** The resolvers *)

Record CreateUserArgs := mkCreateUserArgs {
  ca_fullName : arg string;
  ca_userName : arg string;
  ca_email : arg string;
  ca_password : arg string;
  ca_passwordConfirmation : arg string;
  ca_birthday : arg string;
  ca_isAdmin : arg bool
}.

Record LoginArgs := mkLoginArgs {
  la_email : arg string;
  la_password : arg string
}.

Record UpdatePasswordArgs := mkUpdatePasswordArgs {
  pa_email : arg string;
  pa_oldPassword : arg string;
  pa_newPassword : arg string;
  pa_code : arg string
}.

Record UpdateUserArgs := mkUpdateUserArgs {
  ua_id : arg nat;
  ua_userName : arg string;
  ua_fullName : arg string;
  ua_email : arg string;
  ua_oldPassword : arg string;
  ua_newPassword : arg string;
  ua_birthday : arg string
}.

Definition weak_password_message : string :=
  "Password must be at least 8 characters and contains uppercase, lowercase, digits and special characters !".

Definition invalid_fullName_message : string :=
  "Unvalid FullName! " ++ String (ascii_of_nat 10)
    "Please use the following format : firstname (middlename) lastname".

Section Resolvers.
Context {E : Externals}.

Definition CREATE_USER (args : CreateUserArgs) : Async CreateUserArgs :=
  throw_if (negb (checkValidEmail (ca_email args))) "Unvalid email !" ;;
  throw_if (negb (checkValidFullName (ca_fullName args)))
    invalid_fullName_message ;;
  throw_if (negb (checkValidUserName (ca_userName args))) "Unvalid userName !" ;;
  throw_if (negb (checkValidPassword (ca_password args))) weak_password_message ;;
  throw_if (loose_neq (ca_password args) (ca_passwordConfirmation args))
    "Password must match with passwordConfirmation !" ;;
  throw_if (negb (checkValidBirthday (ca_birthday args))) "Unvalid birthday !" ;;
  user <- Users.findOne
            (fun u => where_eq (email u) (ca_email args)
                      || where_eq (userName u) (ca_userName args)) ;;
  throw_if (present user) "User already registered !" ;;
  let isAdmin := if negb (truthyb (ca_isAdmin args)) then false else true in
  hashed_password <- bcrypt.hash (ca_password args) ;;
  Users.insert (str (ca_fullName args)) (str (ca_userName args))
               (str (ca_email args)) hashed_password
               (str (ca_birthday args)) isAdmin ;;
  ret args.

Definition LOGIN (args : LoginArgs) : Async Token :=
  user <- Users.findOne
            (fun u => where_eq (email u) (la_email args)
                      || where_eq (userName u) (la_email args)) ;;
  match user with
  | None => throw "User doesn't exist !"
  | Some user =>
      passwordMatch <- bcrypt.compare (la_password args) (password user) ;;
      throw_if (negb passwordMatch) "Wrong password !" ;;
      key <- signing_key ;;
      ret (jwt_sign (mkClaims (id user) (fullName user) (email user)
                              (userName user) (isAdmin user))
                    key "1d")
  end.

(** [Users.delete(id)]: without an id the ORM refuses the call. *)
Definition DELETE_USER (id_ : arg nat) : Async unit :=
  match id_ with
  | Some _ => Users.delete (fun u => where_id (id u) id_)
  | None => throw "Empty criteria(s) are not allowed for the delete method."
  end.

Definition UPDATE_USER_PASSWORD (args : UpdatePasswordArgs) : Async unit :=
  user <- Users.findOne (fun u => where_eq (email u) (pa_email args)) ;;
  match user with
  | None => throw "USER DOESN'T EXIST !"
  | Some user =>
      verif_code <- VerificationCode.findOne
                      (fun c => where_eq (vc_email c) (pa_email args)
                                && where_eq (vc_code c) (pa_code args)) ;;
      throw_if (negb (present verif_code)) "Authorization session expired !" ;;
      throw_if (loose_neq (pa_oldPassword args) (pa_newPassword args))
        "Password confirmation doesn't match with password !" ;;
      passwordMatch <- bcrypt.compare (pa_oldPassword args) (password user) ;;
      hashedNewPassword <- bcrypt.hash (pa_newPassword args) ;;
      if negb passwordMatch then
        throw_if (negb (checkValidPassword (pa_newPassword args)))
          weak_password_message ;;
        Users.update (fun u => where_eq (email u) (pa_email args))
          (mkPatch None None None (Some hashedNewPassword) None) ;;
        VerificationCode.delete (fun c => where_eq (vc_code c) (pa_code args))
      else
        throw "Please choose another password"
  end.

(** The first lines of UPDATE_USER: the keys of [updated_usr] set
    from the truthy arguments. *)
Definition pick (a : arg string) : option string :=
  if truthy a then a else None.

Definition UPDATE_USER (args : UpdateUserArgs) : Async nat :=
  let updated_usr :=
    mkPatch (pick (ua_userName args)) (pick (ua_fullName args))
            (pick (ua_email args)) None (pick (ua_birthday args)) in
  user <- Users.findOne (fun u => where_id (id u) (ua_id args)) ;;
  match user with
  | None => throw "USER DOESN'T EXIST !"
  | Some user =>
      updated_usr <-
        (if truthy (ua_oldPassword args) && truthy (ua_newPassword args) then
           throw_if (strict_eq (ua_oldPassword args) (ua_newPassword args))
             "PLEASE CHOOSE ANOTHER PASSWORD !" ;;
           passwordMatch <- bcrypt.compare (ua_oldPassword args) (password user) ;;
           if passwordMatch then
             h <- bcrypt.hash (ua_newPassword args) ;;
             ret (mkPatch (p_userName updated_usr) (p_fullName updated_usr)
                          (p_email updated_usr) (Some h) (p_birthday updated_usr))
           else throw "Password doesn't match"
         else ret updated_usr) ;;
      if negb (Nat.eqb (keys_length updated_usr) 0) then
        Users.update (fun u => where_id (id u) (ua_id args)) updated_usr
      else
        throw "NO ITEM SELECTED !"
  end.

Definition RESET_USER (email_ : arg string) : Async unit :=
  user <- Users.findOne (fun u => where_eq (email u) email_) ;;
  throw_if (negb (present user)) "USER DOESN'T EXIST !" ;;
  verifCode <- generateId_call ;;
  VerificationCode.delete (fun c => where_eq (vc_email c) email_) ;;
  VerificationCode.insert (str email_) verifCode ;;
  removeExpiredAuth (str email_) verifCode 550 ;;
  sendMail (mkMail "noreply@steamvision.app" (str email_)
                   "Password reset verification code"
                   ("<p>Your verification code is <strong>" ++ verifCode
                    ++ "</strong></p>")).

Definition CHECK_VERIFICATION_CODE (email_ code : arg string) : Async string :=
  verif_code <- VerificationCode.findOne
                  (fun c => where_eq (vc_code c) code
                            && where_eq (vc_email c) email_) ;;
  throw_if (negb (present verif_code)) "Unvalid code !" ;;
  ret "OK!".
End Resolvers.

(* ================================================================== *)
(** ** The API surface *)

(** The fields of the [Mutation] object of the schema that resolve to
    the user mutations, each with its arguments. *)
Inductive Mutation :=
| createUser (args : CreateUserArgs)
| login (args : LoginArgs)
| deleteUser (id_ : arg nat)
| updateUserPassword (args : UpdatePasswordArgs)
| updateUser (args : UpdateUserArgs)
| resetUser (email_ : arg string)
| chaeckVerificationUser (email_ code : arg string).

(** What happens to the world: a request is served, or a deferred
    [removeExpiredAuth] task runs. *)
Inductive Event :=
| Request (m : Mutation)
| Expiry (t : Timer).

Definition after {A : Type} (m : Async A) (w : World) : World := snd (m w).

Definition outcome {A : Type} (m : Async A) (w : World) : Outcome A := fst (m w).

Definition serve {E : Externals} (m : Mutation) (w : World) : World :=
  match m with
  | createUser args => after (CREATE_USER args) w
  | login args => after (LOGIN args) w
  | deleteUser i => after (DELETE_USER i) w
  | updateUserPassword args => after (UPDATE_USER_PASSWORD args) w
  | updateUser args => after (UPDATE_USER args) w
  | resetUser e => after (RESET_USER e) w
  | chaeckVerificationUser e c => after (CHECK_VERIFICATION_CODE e c) w
  end.

Definition step {E : Externals} (ev : Event) (w : World) : World :=
  match ev with
  | Request m => serve m w
  | Expiry t => after (expire t) w
  end.

(** A sequential history: the events are handled one after the other. *)
Definition run {E : Externals} (evs : list Event) (w : World) : World :=
  fold_left (fun w ev => step ev w) evs w.

(* ================================================================== *)
(** ** Vocabulary of the properties *)

(** The number of live verification codes of an address. *)
Definition live_codes (e : string) (w : World) : nat :=
  List.length (filter (fun c => vc_email c =? e) (codes w)).

(** At most one live verification code per address. *)
Definition one_code_per_email (w : World) : Prop :=
  forall e, live_codes e w <= 1.

(** The identity claims of a stored user. *)
Definition claims_of (u : User) : Claims :=
  mkClaims (id u) (fullName u) (email u) (userName u) (isAdmin u).

(** [bcrypt.compare] of a submitted password against a stored hash,
    as a test (an absent password matches nothing). *)
Definition matches {E : Externals} (p : arg string) (h : string) : bool :=
  check (fun s => bcrypt_compare s h) p.

(** The four optional profile fields of UPDATE_USER. *)
Inductive Field := FUserName | FFullName | FEmail | FBirthday.

Definition field_arg (f : Field) (args : UpdateUserArgs) : arg string :=
  match f with
  | FUserName => ua_userName args
  | FFullName => ua_fullName args
  | FEmail => ua_email args
  | FBirthday => ua_birthday args
  end.

Definition set_field (f : Field) (v : string) (u : User) : User :=
  match f with
  | FUserName => mkUser (id u) (fullName u) v (email u) (password u) (birthday u) (isAdmin u)
  | FFullName => mkUser (id u) v (userName u) (email u) (password u) (birthday u) (isAdmin u)
  | FEmail => mkUser (id u) (fullName u) (userName u) v (password u) (birthday u) (isAdmin u)
  | FBirthday => mkUser (id u) (fullName u) (userName u) (email u) (password u) v (isAdmin u)
  end.

Definition get_field (f : Field) (u : User) : string :=
  match f with
  | FUserName => userName u
  | FFullName => fullName u
  | FEmail => email u
  | FBirthday => birthday u
  end.

Definition set_password (h : string) (u : User) : User :=
  mkUser (id u) (fullName u) (userName u) (email u) h (birthday u) (isAdmin u).

Definition field_eqb (f g : Field) : bool :=
  match f, g with
  | FUserName, FUserName | FFullName, FFullName
  | FEmail, FEmail | FBirthday, FBirthday => true
  | _, _ => false
  end.

(** A password pair is supplied: both arguments are truthy. *)
Definition password_pair (args : UpdateUserArgs) : bool :=
  truthy (ua_oldPassword args) && truthy (ua_newPassword args).

(** No profile field is present. *)
Definition no_field (args : UpdateUserArgs) : bool :=
  negb (truthy (ua_userName args)) && negb (truthy (ua_fullName args))
  && negb (truthy (ua_email args)) && negb (truthy (ua_birthday args)).

(** [f] is the one profile field that is present. *)
Definition only_field (f : Field) (args : UpdateUserArgs) : bool :=
  forallb (fun g => Bool.eqb (truthy (field_arg g args)) (field_eqb f g))
          [FUserName; FFullName; FEmail; FBirthday].

(** The row CREATE_USER inserts for [args] in the world [w]. *)
Definition new_user {E : Externals} (args : CreateUserArgs) (w : World) : User :=
  mkUser (next_id w) (str (ca_fullName args)) (str (ca_userName args))
         (str (ca_email args)) (bcrypt_hash (str (ca_password args)) (entropy w))
         (str (ca_birthday args)) (truthyb (ca_isAdmin args)).

(** The submitted address or user name belongs to the stored user [u]. *)
Definition taken_by (args : CreateUserArgs) (u : User) : bool :=
  where_eq (email u) (ca_email args) || where_eq (userName u) (ca_userName args).

(** Every check of CREATE_USER passes. *)
Definition signup_accepts {E : Externals} (args : CreateUserArgs) (w : World) : bool :=
  checkValidEmail (ca_email args) && checkValidFullName (ca_fullName args)
  && checkValidUserName (ca_userName args) && checkValidPassword (ca_password args)
  && negb (loose_neq (ca_password args) (ca_passwordConfirmation args))
  && checkValidBirthday (ca_birthday args)
  && negb (existsb (taken_by args) (users w)).

(** A password is weak when it fails the strength check. *)
Definition weak {E : Externals} (p : arg string) : bool :=
  negb (checkValidPassword p).

(** The lookups of the resolvers, as tests on a row. *)
Definition by_email (e : arg string) (u : User) : bool := where_eq (email u) e.

Definition by_identifier (i : arg string) (u : User) : bool :=
  where_eq (email u) i || where_eq (userName u) i.

Definition by_id (i : arg nat) (u : User) : bool := where_id (id u) i.

Definition code_is (e c : arg string) (v : VerifCode) : bool :=
  where_eq (vc_email v) e && where_eq (vc_code v) c.

(** The world a successful UPDATE_USER_PASSWORD leaves: the hash of
    every row with the address replaced, every row of the code
    deleted, one salt drawn. *)
Definition password_updated {E : Externals} (args : UpdatePasswordArgs) (w : World) : World :=
  set_codes (filter (fun c => negb (where_eq (vc_code c) (pa_code args))))
    (set_users
       (map (fun u => if by_email (pa_email args) u
                      then set_password
                             (bcrypt_hash (str (pa_newPassword args)) (entropy w)) u
                      else u))
       (set_entropy (S (entropy w)) w)).

(** The object [updated_usr] when UPDATE_USER reaches the update:
    the truthy profile fields, and the new hash if there is one. *)
Definition profile_patch (args : UpdateUserArgs) (h : option string) : UserPatch :=
  mkPatch (pick (ua_userName args)) (pick (ua_fullName args))
          (pick (ua_email args)) h (pick (ua_birthday args)).

(** The Users table after [Users.update({ id }, p)]. *)
Definition user_updated (args : UpdateUserArgs) (p : UserPatch) (w : World) : World :=
  set_users (map (fun u => if by_id (ua_id args) u then apply_patch p u else u)) w.

(** What an event does to the VerificationCode table: nothing, a
    deletion, or the replacement RESET_USER makes. *)
Inductive codes_change (w w' : World) : Prop :=
| codes_kept : codes w' = codes w -> codes_change w w'
| codes_deleted (q : VerifCode -> bool) :
    codes w' = filter q (codes w) -> codes_change w w'
| codes_replaced (e c : string) :
    codes w' = (filter (fun v => negb (vc_email v =? e)) (codes w)
                ++ [mkVerifCode e c])%list ->
    codes_change w w'.

(** The two tables are as they were. *)
Definition same_tables (w w' : World) : Prop :=
  users w' = users w /\ codes w' = codes w.

(** The law of bcrypt the round trips rest on: a password compares
    equal to any hash made of it. *)
Definition bcrypt_sound (E : Externals) : Prop :=
  forall (p : string) (salt : nat), bcrypt_compare p (bcrypt_hash p salt) = true.

(** No two stored users share an address, and no two a user name. *)
Definition unique_identities (w : World) : Prop :=
  NoDup (map email (users w)) /\ NoDup (map userName (users w)).

(** The event is not an UPDATE_USER that sets an address or a user
    name. *)
Definition keeps_identity (ev : Event) : bool :=
  match ev with
  | Request (updateUser args) =>
      negb (truthy (ua_email args)) && negb (truthy (ua_userName args))
  | _ => true
  end.

(** The key LOGIN signs with in the world [w]. *)
Definition key_of (w : World) : string :=
  match ACCESS_TOKEN_SECRET w with
  | Some s => if s =? "" then "secret_key" else s
  | None => "secret_key"
  end.

(** The message RESET_USER sends for the code [c]. *)
Definition reset_mail (e c : string) : Mail :=
  mkMail "noreply@steamvision.app" e "Password reset verification code"
         ("<p>Your verification code is <strong>" ++ c ++ "</strong></p>").

(* ================================================================== *)
(** ** The signup form of the client *)

(** The state of the [SignUp] component of
    [src/client/src/components/header.tsx]: six text inputs, each
    starting empty. *)
Record SignUpForm := mkSignUpForm {
  f_fullName : string;
  f_email : string;
  f_userName : string;
  f_password : string;
  f_passwordConfirmation : string;
  f_birthday : string
}.

(** [SIGNUP_MUTATION] with the variables the click handler passes:
    the six inputs, and no [isAdmin]. *)
Definition SIGNUP_MUTATION (f : SignUpForm) : Mutation :=
  createUser
    (mkCreateUserArgs (Some (f_fullName f)) (Some (f_userName f))
                      (Some (f_email f)) (Some (f_password f))
                      (Some (f_passwordConfirmation f)) (Some (f_birthday f))
                      None).

(** The request carries the arguments its lookups turn on. *)
Definition supplied_request (m : Mutation) : bool :=
  match m with
  | createUser args => present (ca_email args) && present (ca_userName args)
  | login args => present (la_email args)
  | deleteUser i => present i
  | updateUserPassword args => present (pa_email args) && present (pa_code args)
  | updateUser args => present (ua_id args)
  | resetUser e => present e
  | chaeckVerificationUser e c => present e && present c
  end.

Definition supplied (ev : Event) : bool :=
  match ev with
  | Request m => supplied_request m
  | Expiry _ => true
  end.

(* ================================================================== *)
(** ** A concrete instance, for examples *)

Module Sample.
(** A stand-in for the imported helpers: any non-empty text is well
    formed, a special character is one that is neither a letter nor
    a digit, a hash is the salt letter followed by the password. *)
Definition nonempty (s : string) : bool := negb (s =? "").

Definition toy_special (c : ascii) : bool :=
  negb (is_upper c || is_lower c || is_digit c).

Definition toy_hash (s : string) (salt : nat) : string :=
  String (ascii_of_nat (97 + Nat.modulo salt 26)) s.

Definition toy_compare (s h : string) : bool :=
  match h with
  | String _ rest => rest =? s
  | EmptyString => false
  end.

Definition toy_id (n : nat) : string :=
  String (ascii_of_nat (48 + Nat.modulo n 10)) "-code".

Definition toy : Externals :=
  {| validEmail := nonempty; validFullName := nonempty;
     validUserName := nonempty; validBirthday := nonempty;
     special := toy_special;
     bcrypt_hash := toy_hash; bcrypt_compare := toy_compare;
     generateId := toy_id |}.

Definition ada : User :=
  mkUser 1 "Ada Lovelace" "ada" "ada@example.org" (toy_hash "Engine#1843" 0)
         "1815-12-10" false.

Definition w0 : World :=
  mkWorld [ada] 2 [] [] [] 7 None.

(** [w0] after ada asked for a reset: one live code. *)
Definition w1 : World := after (RESET_USER (E := toy) (Some "ada@example.org")) w0.

Definition code1 : string := toy_id 7.

Definition signup_bob : CreateUserArgs :=
  mkCreateUserArgs (Some "Bob Stone") (Some "bob") (Some "bob@example.org")
                   (Some "Granite!42") (Some "Granite!42") (Some "1990-01-01") None.

Definition no_change (i : nat) : UpdateUserArgs :=
  mkUpdateUserArgs (Some i) None None None None None None.

(** ada confirms a new password with the code she was sent. *)
Definition new_password : UpdatePasswordArgs :=
  mkUpdatePasswordArgs (Some "ada@example.org") (Some "Analytical#2")
                       (Some "Analytical#2") (Some code1).

(** ada changes her user name and nothing else. *)
Definition rename_ada : UpdateUserArgs :=
  mkUpdateUserArgs (Some 1) (Some "countess") None None None None None.

(** ada replaces her password by a single letter. *)
Definition weaken_ada : UpdateUserArgs :=
  mkUpdateUserArgs (Some 1) None None None (Some "Engine#1843") (Some "a") None.

(** A second signup with ada's address. *)
Definition signup_again : CreateUserArgs :=
  mkCreateUserArgs (Some "Ada Byron") (Some "byron") (Some "ada@example.org")
                   (Some "Granite!42") (Some "Granite!42") (Some "1815-12-10") None.

(** ada "confirms" the password she already has. *)
Definition same_password : UpdatePasswordArgs :=
  mkUpdatePasswordArgs (Some "ada@example.org") (Some "Engine#1843")
                       (Some "Engine#1843") (Some code1).

Definition login_ada : LoginArgs :=
  mkLoginArgs (Some "ada") (Some "Engine#1843").

(** An administrator, and a world that has one. *)
Definition root : User :=
  mkUser 0 "Grace Hopper" "root" "root@example.org" (toy_hash "Compiler!1952" 3)
         "1906-12-09" true.

Definition w_admin : World :=
  mkWorld [root; ada] 2 [] [] [] 7 (Some "s3cret").

(** What bob types into the signup form. *)
Definition bob_form : SignUpForm :=
  mkSignUpForm "Bob Stone" "bob@example.org" "bob" "Granite!42" "Granite!42"
               "1990-01-01".
End Sample.

(* ================================================================== *)
(** * Properties *)

(** ** Running a resolver *)

Ltac unfold_async :=
  unfold outcome, after, bind, throw_if, ret, throw,
    Users.findOne, Users.insert, Users.update, Users.delete,
    VerificationCode.findOne, VerificationCode.insert, VerificationCode.delete,
    bcrypt.hash, bcrypt.compare, generateId_call, removeExpiredAuth, sendMail,
    signing_key in *.

(** One branch of the resolver at a time. *)
Ltac split_if :=
  match goal with
  | |- context [if ?b then _ else _] => destruct b eqn:?
  | |- context [match ?x with Some _ => _ | None => _ end] => destruct x eqn:?
  end.

Ltac branches := repeat (simpl; split_if); simpl.

Lemma find_existsb (A : Type) (f : A -> bool) (l : list A) :
  present (find f l) = existsb f l.
Proof.
  induction l as [|a l IH]; simpl; [reflexivity|].
  destruct (f a); simpl; auto.
Qed.

Lemma where_eq_false (col s : string) :
  where_eq col (Some s) = false <-> col <> s.
Proof. simpl. apply String.eqb_neq. Qed.

Lemma find_pointwise (A : Type) (f g : A -> bool) (l : list A) :
  (forall a, f a = g a) -> find f l = find g l.
Proof.
  intros Hfg. induction l as [|a l IH]; simpl; [reflexivity|].
  rewrite Hfg, IH. reflexivity.
Qed.

Lemma find_present (A : Type) (f : A -> bool) (l : list A) (a : A) :
  In a l -> f a = true -> present (find f l) = true.
Proof.
  intros Hin Hf. rewrite find_existsb. apply existsb_exists. eauto.
Qed.

Lemma find_filter_negb (A : Type) (f g : A -> bool) (l : list A) :
  (forall a, f a = true -> g a = true) ->
  find f (filter (fun a => negb (g a)) l) = None.
Proof.
  intros Hfg. induction l as [|a l IH]; simpl; [reflexivity|].
  destruct (g a) eqn:G; simpl; [exact IH|].
  destruct (f a) eqn:F; [|exact IH].
  apply Hfg in F. congruence.
Qed.

Lemma find_map_update (f : User -> bool) (g : User -> User) (l : list User) (u : User) :
  (forall x, f (g x) = f x) ->
  find f l = Some u ->
  find f (map (fun x => if f x then g x else x) l) = Some (g u).
Proof.
  intros Hg. induction l as [|a l IH]; simpl; [discriminate|].
  destruct (f a) eqn:F.
  - intros [= <-]. rewrite Hg, F. reflexivity.
  - rewrite F. exact IH.
Qed.

(* ------------------------------------------------------------------ *)
(** ** CREATE_USER *)

Section CreateUser.
Context {E : Externals}.

(** CREATE_USER either fails one of its checks, and then rejects
    without a write, or passes them all, inserts one row and echoes
    its arguments. *)
Lemma create_user_cases (args : CreateUserArgs) (w : World) :
  (signup_accepts args w = false /\
   exists msg, CREATE_USER args w = (Rejected msg, w))
  \/
  (signup_accepts args w = true /\
   CREATE_USER args w =
     (Resolved args,
      set_next_id (S (next_id w))
        (set_users (fun us => (us ++ [new_user args w])%list)
           (set_entropy (S (entropy w)) w)))).
Proof.
  unfold signup_accepts, CREATE_USER. unfold_async.
  rewrite <- find_existsb.
  destruct (checkValidEmail (ca_email args)); simpl; [|left; eauto].
  destruct (checkValidFullName (ca_fullName args)); simpl; [|left; eauto].
  destruct (checkValidUserName (ca_userName args)); simpl; [|left; eauto].
  destruct (checkValidPassword (ca_password args)) eqn:P; simpl; [|left; eauto].
  destruct (loose_neq (ca_password args) (ca_passwordConfirmation args));
    simpl; [left; eauto|].
  destruct (checkValidBirthday (ca_birthday args)); simpl; [|left; eauto].
  destruct (find _ (users w)); simpl; [left; eauto|].
  right. split; [reflexivity|].
  unfold new_user, truthyb.
  destruct (ca_password args) as [p|]; [|discriminate P]. simpl.
  destruct (ca_isAdmin args) as [[|]|]; reflexivity.
Qed.

Lemma create_user_resolved (args r : CreateUserArgs) (w : World) :
  outcome (CREATE_USER args) w = Resolved r ->
  signup_accepts args w = true /\ r = args /\
  after (CREATE_USER args) w =
    set_next_id (S (next_id w))
      (set_users (fun us => (us ++ [new_user args w])%list)
         (set_entropy (S (entropy w)) w)).
Proof.
  unfold outcome, after.
  destruct (create_user_cases args w) as [[_ [msg ->]]|[Hacc ->]]; simpl.
  - discriminate.
  - intros [= <-]. auto.
Qed.

Lemma create_user_rejected (args : CreateUserArgs) (w : World) :
  rejected (outcome (CREATE_USER args) w) = true ->
  after (CREATE_USER args) w = w.
Proof.
  unfold outcome, after.
  destruct (create_user_cases args w) as [[_ [msg ->]]|[Hacc ->]]; simpl.
  - reflexivity.
  - discriminate.
Qed.
End CreateUser.

Section CreateUserClaims.
Context {E : Externals}.

(** C5. A signup whose email or whose user name already belongs to a
    stored user is rejected, and no row is inserted: the world after
    the call is the world before it. *)
Theorem signup_duplicate_rejected (args : CreateUserArgs) (w : World) (u : User) :
  In u (users w) ->
  ca_email args = Some (email u) \/ ca_userName args = Some (userName u) ->
  rejected (outcome (CREATE_USER args) w) = true
  /\ after (CREATE_USER args) w = w.
Proof.
  intros Hin Hdup.
  assert (Htaken : existsb (taken_by args) (users w) = true).
  { apply existsb_exists. exists u. split; [exact Hin|].
    unfold taken_by, where_eq.
    destruct Hdup as [-> | ->]; rewrite String.eqb_refl;
      auto using orb_true_r. }
  unfold outcome, after.
  destruct (create_user_cases args w) as [[_ [msg ->]]|[Hacc _]]; simpl.
  - auto.
  - unfold signup_accepts in Hacc. rewrite Htaken in Hacc.
    rewrite andb_false_r in Hacc. discriminate.
Qed.

(** C8. A signup that succeeds returns the very arguments it was
    given, the password among them as it was submitted; the row it
    stored carries the generated key and the hash instead. *)
Theorem signup_echoes_arguments (args r : CreateUserArgs) (w : World) :
  outcome (CREATE_USER args) w = Resolved r ->
  r = args
  /\ exists p,
       ca_password r = Some p
       /\ users (after (CREATE_USER args) w) = (users w ++ [new_user args w])%list
       /\ password (new_user args w) = bcrypt_hash p (entropy w)
       /\ id (new_user args w) = next_id w.
Proof.
  intros H. apply create_user_resolved in H as (Hacc & -> & ->).
  split; [reflexivity|].
  unfold signup_accepts in Hacc.
  repeat (apply andb_prop in Hacc as [Hacc ?]).
  destruct (ca_password args) as [p|] eqn:Hp; [|discriminate].
  exists p. unfold new_user. rewrite Hp. simpl. auto.
Qed.

(** C10. The row a successful signup inserts is an administrator
    exactly when [isAdmin] was supplied and true; with [isAdmin]
    absent or false the stored flag is false. *)
Theorem signup_admin_flag (args r : CreateUserArgs) (w : World) :
  outcome (CREATE_USER args) w = Resolved r ->
  exists u,
    users (after (CREATE_USER args) w) = (users w ++ [u])%list
    /\ isAdmin u = match ca_isAdmin args with
                   | Some true => true
                   | Some false | None => false
                   end.
Proof.
  intros H. apply create_user_resolved in H as (_ & _ & ->).
  exists (new_user args w). split; [reflexivity|].
  simpl. destruct (ca_isAdmin args) as [[|]|]; reflexivity.
Qed.
End CreateUserClaims.

(* ------------------------------------------------------------------ *)
(** ** LOGIN *)

Section Login.
Context {E : Externals}.

Lemma login_unfold (args : LoginArgs) (w : World) :
  LOGIN args w =
    match find (by_identifier (la_email args)) (users w) with
    | None => (Rejected "User doesn't exist !", w)
    | Some u =>
        match la_password args with
        | None => (Rejected "Illegal arguments: undefined, string", w)
        | Some p =>
            if bcrypt_compare p (password u)
            then (Resolved (jwt_sign (claims_of u)
                              (if truthy (ACCESS_TOKEN_SECRET w)
                               then str (ACCESS_TOKEN_SECRET w) else "secret_key")
                              "1d"), w)
            else (Rejected "Wrong password !", w)
        end
    end.
Proof.
  unfold LOGIN. unfold_async.
  change (fun u : User => where_eq (email u) (la_email args)
                          || where_eq (userName u) (la_email args))
    with (by_identifier (la_email args)).
  destruct (find _ (users w)) as [u|]; [|reflexivity].
  destruct (la_password args) as [p|]; simpl; [|reflexivity].
  destruct (bcrypt_compare p (password u)); reflexivity.
Qed.

(** C6. LOGIN looks the user up by email or user name; it rejects
    when no user has the supplied identifier as email or as user
    name, or when the password does not match the stored hash; with
    the right password it returns a token signed for one day whose
    payload is the identity of the stored user.  It writes nothing. *)
Theorem login_spec (args : LoginArgs) (w : World) :
  (forall i : string,
      la_email args = Some i ->
      (forall u, In u (users w) -> email u <> i /\ userName u <> i) ->
      rejected (outcome (LOGIN args) w) = true)
  /\ (forall u,
        find (by_identifier (la_email args)) (users w) = Some u ->
        In u (users w)
        /\ (where_eq (email u) (la_email args) = true
            \/ where_eq (userName u) (la_email args) = true)
        /\ if matches (la_password args) (password u)
           then exists t,
               outcome (LOGIN args) w = Resolved t
               /\ jwt_decode t = mkClaims (id u) (fullName u) (email u)
                                          (userName u) (isAdmin u)
               /\ jwt_expiresIn t = "1d"
           else rejected (outcome (LOGIN args) w) = true)
  /\ after (LOGIN args) w = w.
Proof.
  unfold outcome, after. rewrite login_unfold.
  split; [|split].
  - intros i Hi Hnone. rewrite Hi.
    destruct (find _ (users w)) as [u|] eqn:F; [|reflexivity].
    apply find_some in F as [Hin Hu]. unfold by_identifier in Hu.
    destruct (Hnone u Hin) as [H1 H2].
    apply where_eq_false in H1, H2. rewrite H1, H2 in Hu. discriminate.
  - intros u F. rewrite F.
    apply find_some in F as [Hin Hu]. unfold by_identifier in Hu.
    apply orb_prop in Hu.
    split; [exact Hin|]. split; [exact Hu|].
    unfold matches, check.
    destruct (la_password args) as [p|]; [|reflexivity].
    destruct (bcrypt_compare p (password u)); [|reflexivity].
    eexists. simpl. auto.
  - destruct (find _ (users w)) as [u|]; [|reflexivity].
    destruct (la_password args) as [p|]; [|reflexivity].
    destruct (bcrypt_compare p (password u)); reflexivity.
Qed.
End Login.

(* ------------------------------------------------------------------ *)
(** ** UPDATE_USER_PASSWORD and CHECK_VERIFICATION_CODE *)

Section UpdatePassword.
Context {E : Externals}.

Lemma update_password_unfold (args : UpdatePasswordArgs) (w : World) :
  UPDATE_USER_PASSWORD args w =
    match find (by_email (pa_email args)) (users w) with
    | None => (Rejected "USER DOESN'T EXIST !", w)
    | Some u =>
        if negb (present (find (code_is (pa_email args) (pa_code args)) (codes w)))
        then (Rejected "Authorization session expired !", w)
        else if loose_neq (pa_oldPassword args) (pa_newPassword args)
        then (Rejected "Password confirmation doesn't match with password !", w)
        else match pa_oldPassword args with
             | None => (Rejected "Illegal arguments: undefined, string", w)
             | Some p =>
                 if bcrypt_compare p (password u)
                 then (Rejected "Please choose another password",
                       set_entropy (S (entropy w)) w)
                 else if checkValidPassword (pa_newPassword args)
                 then (Resolved tt, password_updated args w)
                 else (Rejected weak_password_message,
                       set_entropy (S (entropy w)) w)
             end
    end.
Proof.
  unfold UPDATE_USER_PASSWORD, password_updated. unfold_async.
  change (fun u : User => where_eq (email u) (pa_email args))
    with (by_email (pa_email args)).
  change (fun c : VerifCode => where_eq (vc_email c) (pa_email args)
                               && where_eq (vc_code c) (pa_code args))
    with (code_is (pa_email args) (pa_code args)).
  destruct (find _ (users w)) as [u|]; [|reflexivity].
  destruct (find _ (codes w)) as [v|]; simpl; [|reflexivity].
  destruct (loose_neq _ _) eqn:L; simpl; [reflexivity|].
  destruct (pa_oldPassword args) as [p|]; simpl; [|reflexivity].
  destruct (pa_newPassword args) as [q|]; simpl in *; [|discriminate L].
  destruct (bcrypt_compare p (password u)); simpl; [reflexivity|].
  destruct (strong q); reflexivity.
Qed.

(** When UPDATE_USER_PASSWORD resolves, the new password is strong and
    the world is [password_updated]. *)
Lemma update_password_resolved (args : UpdatePasswordArgs) (w : World) (r : unit) :
  outcome (UPDATE_USER_PASSWORD args) w = Resolved r ->
  checkValidPassword (pa_newPassword args) = true
  /\ after (UPDATE_USER_PASSWORD args) w = password_updated args w.
Proof.
  unfold outcome, after. rewrite update_password_unfold.
  branches; intros; try discriminate; auto.
Qed.

Lemma update_password_rejected (args : UpdatePasswordArgs) (w : World) :
  rejected (outcome (UPDATE_USER_PASSWORD args) w) = true ->
  users (after (UPDATE_USER_PASSWORD args) w) = users w
  /\ codes (after (UPDATE_USER_PASSWORD args) w) = codes w.
Proof.
  unfold outcome, after. rewrite update_password_unfold.
  branches; intros; try discriminate; auto.
Qed.

Lemma code_gone (args : UpdatePasswordArgs) (w : World) (e : arg string) :
  find (code_is e (pa_code args)) (codes (password_updated args w)) = None.
Proof.
  simpl. apply find_filter_negb.
  intros v Hv. unfold code_is in Hv. apply andb_prop in Hv. tauto.
Qed.

(** C1. With the user stored, a row for (email, code) stored and
    oldPassword equal to newPassword: when oldPassword does not match
    the stored hash and newPassword is strong, the call resolves, the
    stored hash becomes a hash of newPassword and the code is
    deleted; in every other case, a matching oldPassword among them,
    the call rejects. *)
Theorem update_password_spec (args : UpdatePasswordArgs) (w : World)
        (u : User) (v : VerifCode) :
  find (by_email (pa_email args)) (users w) = Some u ->
  find (code_is (pa_email args) (pa_code args)) (codes w) = Some v ->
  loose_neq (pa_oldPassword args) (pa_newPassword args) = false ->
  let w' := after (UPDATE_USER_PASSWORD args) w in
  let h := bcrypt_hash (str (pa_newPassword args)) (entropy w) in
  if negb (matches (pa_oldPassword args) (password u))
     && checkValidPassword (pa_newPassword args)
  then outcome (UPDATE_USER_PASSWORD args) w = Resolved tt
       /\ users w' = map (fun x => if where_eq (email x) (pa_email args)
                                   then set_password h x else x) (users w)
       /\ find (by_email (pa_email args)) (users w') = Some (set_password h u)
       /\ codes w' = filter (fun c => negb (where_eq (vc_code c) (pa_code args)))
                            (codes w)
       /\ find (code_is (pa_email args) (pa_code args)) (codes w') = None
  else rejected (outcome (UPDATE_USER_PASSWORD args) w) = true.
Proof.
  intros Hu Hv Heq w' h. subst w' h.
  unfold outcome, after. rewrite update_password_unfold, Hu, Hv. simpl.
  rewrite Heq. unfold matches, check.
  destruct (pa_oldPassword args) as [p|] eqn:Hold.
  - destruct (bcrypt_compare p (password u)); simpl; [reflexivity|].
    destruct (checkValidPassword (pa_newPassword args)); simpl; [|reflexivity].
    repeat split.
    + apply (find_map_update (by_email (pa_email args))); [reflexivity|exact Hu].
    + apply (code_gone args w).
  - simpl. destruct (pa_newPassword args); [discriminate Heq|reflexivity].
Qed.

Lemma check_code_unfold (e c : arg string) (w : World) :
  CHECK_VERIFICATION_CODE e c w =
    (if present (find (code_is e c) (codes w))
     then Resolved "OK!" else Rejected "Unvalid code !", w).
Proof.
  unfold CHECK_VERIFICATION_CODE. unfold_async.
  rewrite (@find_pointwise _ _ (code_is e c)).
  - destruct (find _ _); reflexivity.
  - intros x. unfold code_is. apply andb_comm.
Qed.

(** C2, as the code has it.  CHECK_VERIFICATION_CODE writes nothing.
    For a supplied email and code it resolves exactly when a row
    (email, code) is stored, and so it resolves again, however often
    it is asked, while the row is there.  The code is consumed by
    UPDATE_USER_PASSWORD: once that call, made with a supplied email
    and code, has resolved, a check of the same (email, code) is
    rejected. *)
Theorem code_consumed_by_update_only :
  (forall (e c : arg string) (w : World),
      after (CHECK_VERIFICATION_CODE e c) w = w)
  /\ (forall (e c : string) (w : World),
        outcome (CHECK_VERIFICATION_CODE (Some e) (Some c)) w = Resolved "OK!"
        <-> In (mkVerifCode e c) (codes w))
  /\ (forall (e c : string) (w : World) (n : nat),
        In (mkVerifCode e c) (codes w) ->
        outcome (CHECK_VERIFICATION_CODE (Some e) (Some c))
                (Nat.iter n (after (CHECK_VERIFICATION_CODE (Some e) (Some c))) w)
        = Resolved "OK!")
  /\ (forall (args : UpdatePasswordArgs) (e c : string) (w : World) (r : unit),
        pa_email args = Some e ->
        pa_code args = Some c ->
        outcome (UPDATE_USER_PASSWORD args) w = Resolved r ->
        outcome (CHECK_VERIFICATION_CODE (Some e) (Some c))
                (after (UPDATE_USER_PASSWORD args) w)
        = Rejected "Unvalid code !").
Proof.
  assert (Hsame : forall (e c : arg string) (w : World),
             after (CHECK_VERIFICATION_CODE e c) w = w).
  { intros e c w. unfold after. rewrite check_code_unfold. reflexivity. }
  assert (Hiff : forall (e c : string) (w : World),
             outcome (CHECK_VERIFICATION_CODE (Some e) (Some c)) w = Resolved "OK!"
             <-> In (mkVerifCode e c) (codes w)).
  { intros e c w. unfold outcome. rewrite check_code_unfold, find_existsb.
    cbn [fst]. split.
    - destruct (existsb _ (codes w)) eqn:X; [|discriminate].
      intros _. apply existsb_exists in X as (v & Hin & Hv).
      unfold code_is in Hv. simpl in Hv. apply andb_prop in Hv as [He Hc].
      apply String.eqb_eq in He, Hc. destruct v as [ve vc]. simpl in *.
      subst. exact Hin.
    - intros Hin.
      assert (X : existsb (code_is (Some e) (Some c)) (codes w) = true).
      { apply existsb_exists. exists (mkVerifCode e c). split; [exact Hin|].
        unfold code_is. simpl. rewrite !String.eqb_refl. reflexivity. }
      rewrite X. reflexivity. }
  split; [exact Hsame|]. split; [exact Hiff|]. split.
  - intros e c w n Hin.
    assert (Hiter : Nat.iter n (after (CHECK_VERIFICATION_CODE (Some e) (Some c))) w = w).
    { induction n as [|n IH]; simpl; [reflexivity|]. rewrite IH. apply Hsame. }
    rewrite Hiter. apply Hiff. exact Hin.
  - intros args e c w r He Hc H. apply update_password_resolved in H as [_ ->].
    unfold outcome. rewrite check_code_unfold, <- Hc, code_gone. reflexivity.
Qed.
End UpdatePassword.

(* ------------------------------------------------------------------ *)
(** ** UPDATE_USER *)

Section UpdateUser.
Context {E : Externals}.

Lemma keys_length_profile (args : UpdateUserArgs) :
  Nat.eqb (keys_length (profile_patch args None)) 0 = no_field args.
Proof.
  unfold keys_length, profile_patch, no_field, pick. simpl.
  destruct (truthy (ua_userName args)) eqn:T1;
    destruct (truthy (ua_fullName args)) eqn:T2;
    destruct (truthy (ua_email args)) eqn:T3;
    destruct (truthy (ua_birthday args)) eqn:T4;
    repeat match goal with
           | H : truthy ?a = true |- _ => destruct a; [clear H | discriminate H]
           end;
    reflexivity.
Qed.

Lemma keys_length_hash (args : UpdateUserArgs) (h : string) :
  Nat.eqb (keys_length (profile_patch args (Some h))) 0 = false.
Proof.
  unfold keys_length, profile_patch. simpl.
  apply Nat.eqb_neq. lia.
Qed.

Lemma update_user_unfold (args : UpdateUserArgs) (w : World) :
  UPDATE_USER args w =
    match find (by_id (ua_id args)) (users w) with
    | None => (Rejected "USER DOESN'T EXIST !", w)
    | Some u =>
        let affected := List.length (filter (by_id (ua_id args)) (users w)) in
        if password_pair args then
          if strict_eq (ua_oldPassword args) (ua_newPassword args)
          then (Rejected "PLEASE CHOOSE ANOTHER PASSWORD !", w)
          else if bcrypt_compare (str (ua_oldPassword args)) (password u)
          then (Resolved affected,
                user_updated args
                  (profile_patch args
                     (Some (bcrypt_hash (str (ua_newPassword args)) (entropy w))))
                  (set_entropy (S (entropy w)) w))
          else (Rejected "Password doesn't match", w)
        else if no_field args
        then (Rejected "NO ITEM SELECTED !", w)
        else (Resolved affected, user_updated args (profile_patch args None) w)
    end.
Proof.
  unfold UPDATE_USER, password_pair, user_updated. unfold_async.
  change (fun u : User => where_id (id u) (ua_id args)) with (by_id (ua_id args)).
  destruct (find _ (users w)) as [u|]; [|reflexivity].
  destruct (truthy (ua_oldPassword args) && truthy (ua_newPassword args)) eqn:T.
  - apply andb_prop in T as [To Tn].
    destruct (ua_oldPassword args) as [o|]; [|discriminate To].
    destruct (ua_newPassword args) as [n|]; [|discriminate Tn].
    simpl. destruct (o =? n)%string; simpl; [reflexivity|].
    destruct (bcrypt_compare o (password u)); simpl; [|reflexivity].
    change (mkPatch (pick (ua_userName args)) (pick (ua_fullName args))
                    (pick (ua_email args))
                    (Some (bcrypt_hash n (entropy w)))
                    (pick (ua_birthday args)))
      with (profile_patch args (Some (bcrypt_hash n (entropy w)))).
    rewrite keys_length_hash. reflexivity.
  - simpl.
    change (mkPatch (pick (ua_userName args)) (pick (ua_fullName args))
                    (pick (ua_email args)) None (pick (ua_birthday args)))
      with (profile_patch args None).
    rewrite keys_length_profile.
    destruct (no_field args); reflexivity.
Qed.

Lemma update_user_rejected (args : UpdateUserArgs) (w : World) :
  rejected (outcome (UPDATE_USER args) w) = true ->
  after (UPDATE_USER args) w = w.
Proof.
  unfold outcome, after. rewrite update_user_unfold.
  branches; intros; try discriminate; auto.
Qed.

(** A patch that sets the one profile field [f] acts as [set_field]. *)
Lemma only_field_patch (f : Field) (args : UpdateUserArgs) (u : User) :
  only_field f args = true ->
  no_field args = false
  /\ apply_patch (profile_patch args None) u
     = set_field f (str (field_arg f args)) u.
Proof.
  unfold only_field, no_field, profile_patch, apply_patch, pick. simpl.
  intros H. rewrite andb_true_r in H.
  repeat (apply andb_prop in H as [? H]).
  repeat match goal with
         | H : Bool.eqb _ _ = true |- _ => apply eqb_prop in H
         end.
  destruct f; simpl in *;
    repeat match goal with
           | H : truthy _ = _ |- _ => rewrite H
           end;
    (split; [reflexivity|]);
    repeat match goal with
           | H : truthy ?a = true |- _ => destruct a; [clear H | discriminate H]
           end;
    reflexivity.
Qed.

Lemma by_id_apply_patch (i : arg nat) (p : UserPatch) (u : User) :
  by_id i (apply_patch p u) = by_id i u.
Proof. reflexivity. Qed.

Lemma user_updated_field (args : UpdateUserArgs) (h : option string)
      (w : World) (f : Field) :
  truthy (field_arg f args) = false ->
  map (get_field f) (users (user_updated args (profile_patch args h) w))
  = map (get_field f) (users w).
Proof.
  intros Hf. simpl. rewrite map_map. apply map_ext. intros x.
  destruct (by_id (ua_id args) x); [|reflexivity].
  unfold apply_patch, profile_patch, pick.
  destruct f; simpl in *; rewrite Hf; reflexivity.
Qed.

Lemma user_updated_password (args : UpdateUserArgs) (w : World) :
  map password (users (user_updated args (profile_patch args None) w))
  = map password (users w).
Proof.
  simpl. rewrite map_map. apply map_ext. intros x.
  destruct (by_id (ua_id args) x); reflexivity.
Qed.

Lemma user_updated_key (args : UpdateUserArgs) (p : UserPatch) (w : World) :
  map id (users (user_updated args p w)) = map id (users w)
  /\ map isAdmin (users (user_updated args p w)) = map isAdmin (users w).
Proof.
  simpl. rewrite !map_map.
  split; apply map_ext; intros x; destruct (by_id (ua_id args) x); reflexivity.
Qed.

(** Whatever the arguments and whatever the outcome, UPDATE_USER leaves
    alone every profile field that is not present, the hash unless a
    password pair is supplied, and the key and the admin flag always. *)
Lemma update_user_untouched (args : UpdateUserArgs) (w : World) :
  let w' := after (UPDATE_USER args) w in
  (forall f : Field,
      truthy (field_arg f args) = false ->
      map (get_field f) (users w') = map (get_field f) (users w))
  /\ (password_pair args = false ->
      map password (users w') = map password (users w))
  /\ map id (users w') = map id (users w)
  /\ map isAdmin (users w') = map isAdmin (users w).
Proof.
  unfold after. rewrite update_user_unfold.
  destruct (find _ (users w)) as [u|]; [|simpl; auto].
  cbv zeta.
  destruct (password_pair args).
  - destruct (strict_eq _ _); [simpl; auto|].
    destruct (bcrypt_compare _ _); [|simpl; auto].
    cbn [snd]. repeat apply conj.
    + intros f Hf.
      exact (user_updated_field args _ (set_entropy (S (entropy w)) w) f Hf).
    + discriminate.
    + exact (proj1 (user_updated_key args _ (set_entropy (S (entropy w)) w))).
    + exact (proj2 (user_updated_key args _ (set_entropy (S (entropy w)) w))).
  - destruct (no_field args); [simpl; auto|].
    cbn [snd]. repeat apply conj.
    + intros f Hf. apply (user_updated_field args _ _ f Hf).
    + intros _. apply user_updated_password.
    + apply user_updated_key.
    + apply user_updated_key.
Qed.

(** C3. On a stored user: with no profile field present and no
    password pair, UPDATE_USER rejects and leaves the world as it
    was; with exactly one profile field present (and no password
    pair) it resolves and the update writes that field and no other,
    in the rows with the id and in no other row; with the password
    pair alone, a call that resolves writes the hash and no other
    field.  In every call a field that is not present is left as it
    was in every row. *)
Theorem update_user_frame (args : UpdateUserArgs) (w : World) (u : User) :
  find (by_id (ua_id args)) (users w) = Some u ->
  (no_field args = true -> password_pair args = false ->
   rejected (outcome (UPDATE_USER args) w) = true
   /\ after (UPDATE_USER args) w = w)
  /\ (forall f : Field,
        only_field f args = true -> password_pair args = false ->
        let v := str (field_arg f args) in
        let w' := after (UPDATE_USER args) w in
        rejected (outcome (UPDATE_USER args) w) = false
        /\ users w' = map (fun x => if where_id (id x) (ua_id args)
                                    then set_field f v x else x) (users w)
        /\ find (by_id (ua_id args)) (users w') = Some (set_field f v u)
        /\ codes w' = codes w)
  /\ (forall n : nat,
        no_field args = true -> password_pair args = true ->
        outcome (UPDATE_USER args) w = Resolved n ->
        let h := bcrypt_hash (str (ua_newPassword args)) (entropy w) in
        let w' := after (UPDATE_USER args) w in
        users w' = map (fun x => if where_id (id x) (ua_id args)
                                 then set_password h x else x) (users w)
        /\ codes w' = codes w)
  /\ (let w' := after (UPDATE_USER args) w in
      (forall f : Field,
          truthy (field_arg f args) = false ->
          map (get_field f) (users w') = map (get_field f) (users w))
      /\ (password_pair args = false ->
          map password (users w') = map password (users w))
      /\ map id (users w') = map id (users w)
      /\ map isAdmin (users w') = map isAdmin (users w)).
Proof.
  intros Hu.
  split; [|split; [|split]]; [| | |apply update_user_untouched];
    unfold outcome, after; rewrite update_user_unfold, Hu.
  - intros -> ->. simpl. auto.
  - intros f Hf ->. simpl.
    destruct (only_field_patch f args u Hf) as [-> _]. simpl.
    repeat split.
    + apply map_ext. intros x. fold (by_id (ua_id args) x).
      destruct (by_id (ua_id args) x); [|reflexivity].
      apply (only_field_patch f args x Hf).
    + rewrite (find_map_update (by_id (ua_id args))
                 (apply_patch (profile_patch args None)) _ _ (fun _ => eq_refl) Hu).
      f_equal. apply (only_field_patch f args u Hf).
  - intros n Hno ->. simpl.
    destruct (strict_eq _ _); [discriminate|].
    destruct (bcrypt_compare _ _); [|discriminate].
    intros _. simpl. split; [|reflexivity].
    apply map_ext. intros x. fold (by_id (ua_id args) x).
    destruct (by_id (ua_id args) x); [|reflexivity].
    unfold no_field in Hno.
    repeat (apply andb_prop in Hno as [Hno ?]).
    unfold apply_patch, profile_patch, pick, set_password. simpl.
    repeat match goal with
           | H : negb (truthy ?a) = true |- _ =>
               apply negb_true_iff in H; rewrite H
           end.
    reflexivity.
Qed.

(** C4, the path that misses the check.  UPDATE_USER with a password
    pair compares the old password and stores a hash of the new one
    whatever its strength. *)
Theorem update_user_stores_unchecked_password
        (args : UpdateUserArgs) (w : World) (u : User) (o n : string) :
  find (by_id (ua_id args)) (users w) = Some u ->
  ua_oldPassword args = Some o ->
  ua_newPassword args = Some n ->
  o <> "" -> n <> "" -> o <> n ->
  bcrypt_compare o (password u) = true ->
  rejected (outcome (UPDATE_USER args) w) = false
  /\ exists u',
      find (by_id (ua_id args)) (users (after (UPDATE_USER args) w)) = Some u'
      /\ password u' = bcrypt_hash n (entropy w).
Proof.
  intros Hu Ho Hn Ho' Hn' Hne Hcmp.
  unfold outcome, after. rewrite update_user_unfold, Hu.
  unfold password_pair. rewrite Ho, Hn. simpl.
  apply String.eqb_neq in Ho', Hn', Hne. rewrite Ho', Hn', Hne, Hcmp. simpl.
  split; [reflexivity|].
  eexists. split.
  - apply (find_map_update (by_id (ua_id args))); [reflexivity|exact Hu].
  - reflexivity.
Qed.

(** The sibling paths do check: a weak password is rejected at
    signup and by UPDATE_USER_PASSWORD, and nothing is stored. *)
Lemma weak_rejected_at_signup (args : CreateUserArgs) (w : World) :
  weak (ca_password args) = true ->
  rejected (outcome (CREATE_USER args) w) = true
  /\ after (CREATE_USER args) w = w.
Proof.
  unfold weak. intros Hweak. apply negb_true_iff in Hweak.
  unfold outcome, after.
  destruct (create_user_cases args w) as [[_ [msg ->]]|[Hacc _]]; simpl.
  - auto.
  - unfold signup_accepts in Hacc. rewrite Hweak in Hacc.
    rewrite andb_false_r in Hacc. discriminate.
Qed.

Lemma weak_rejected_at_update_password (args : UpdatePasswordArgs) (w : World) :
  weak (pa_newPassword args) = true ->
  rejected (outcome (UPDATE_USER_PASSWORD args) w) = true
  /\ users (after (UPDATE_USER_PASSWORD args) w) = users w.
Proof.
  unfold weak. intros Hweak. apply negb_true_iff in Hweak.
  unfold outcome, after. rewrite update_password_unfold, Hweak.
  branches; auto.
Qed.
End UpdateUser.

(* ------------------------------------------------------------------ *)
(** ** RESET_USER and the live codes *)

Section ResetUser.
Context {E : Externals}.

Lemma reset_user_unfold (e : arg string) (w : World) :
  RESET_USER e w =
    if present (find (by_email e) (users w)) then
      let c := generateId (entropy w) in
      (Resolved tt,
       set_outbox
         (fun ms => (ms ++ [mkMail "noreply@steamvision.app" (str e)
                              "Password reset verification code"
                              ("<p>Your verification code is <strong>" ++ c
                               ++ "</strong></p>")])%list)
         (set_timers (fun ts => (ts ++ [mkTimer (str e) c 550])%list)
            (set_codes
               (fun cs => (filter (fun v => negb (where_eq (vc_email v) e)) cs
                           ++ [mkVerifCode (str e) c])%list)
               (set_entropy (S (entropy w)) w))))
    else (Rejected "USER DOESN'T EXIST !", w).
Proof.
  unfold RESET_USER. unfold_async.
  change (fun u : User => where_eq (email u) e) with (by_email e).
  destruct (find _ (users w)); reflexivity.
Qed.

Lemma filter_length_le (A : Type) (p q : A -> bool) (l : list A) :
  List.length (filter p (filter q l)) <= List.length (filter p l).
Proof.
  induction l as [|a l IH]; simpl; [lia|].
  destruct (q a); simpl; destruct (p a); simpl; lia.
Qed.

Lemma filter_out_email (e : string) (cs : list VerifCode) :
  filter (fun c => vc_email c =? e)
         (filter (fun v => negb (vc_email v =? e)) cs) = [].
Proof.
  induction cs as [|c cs IH]; simpl; [reflexivity|].
  destruct (vc_email c =? e) eqn:H; simpl; [exact IH|].
  rewrite H. exact IH.
Qed.

Lemma live_codes_same (w w' : World) (e : string) :
  codes w' = codes w -> live_codes e w' = live_codes e w.
Proof. unfold live_codes. intros ->. reflexivity. Qed.

Lemma live_codes_filtered (w w' : World) (q : VerifCode -> bool) (e : string) :
  codes w' = filter q (codes w) -> live_codes e w' <= live_codes e w.
Proof. unfold live_codes. intros ->. apply filter_length_le. Qed.

Lemma live_codes_reset (w w' : World) (e c e' : string) :
  codes w' = (filter (fun v => negb (vc_email v =? e)) (codes w)
              ++ [mkVerifCode e c])%list ->
  live_codes e' w' = if e =? e' then 1 else live_codes e' (set_codes (filter (fun v => negb (vc_email v =? e))) w).
Proof.
  unfold live_codes. intros ->. rewrite filter_app, length_app. simpl.
  destruct (e =? e') eqn:He; simpl.
  - apply String.eqb_eq in He. subst e'. rewrite filter_out_email. reflexivity.
  - lia.
Qed.

Lemma step_codes_change (ev : Event) (w : World) : codes_change w (step ev w).
Proof.
  destruct ev as [[args|args|i|args|args|e|e c]|t]; simpl; unfold after.
  - destruct (create_user_cases args w) as [[_ [msg ->]]|[_ ->]];
      apply codes_kept; reflexivity.
  - rewrite login_unfold. apply codes_kept. branches; reflexivity.
  - apply codes_kept. destruct i; reflexivity.
  - rewrite update_password_unfold.
    branches;
      try (apply codes_kept; reflexivity).
    eapply codes_deleted. reflexivity.
  - rewrite update_user_unfold. apply codes_kept. branches; reflexivity.
  - rewrite reset_user_unfold.
    destruct (find (by_email e) (users w)) as [u|] eqn:F; simpl.
    + destruct e as [e|]; [|apply find_some in F as [_ F]; discriminate F].
      eapply codes_replaced. reflexivity.
    + apply codes_kept. reflexivity.
  - rewrite check_code_unfold. apply codes_kept. reflexivity.
  - eapply codes_deleted. reflexivity.
Qed.

Lemma codes_change_invariant (w w' : World) :
  codes_change w w' -> one_code_per_email w -> one_code_per_email w'.
Proof.
  intros [H|q H|e c H] Hinv e'.
  - rewrite (live_codes_same w w' e' H). apply Hinv.
  - pose proof (live_codes_filtered w w' q e' H). specialize (Hinv e'). lia.
  - rewrite (live_codes_reset w w' e c e' H).
    destruct (e =? e'); [lia|].
    pose proof (live_codes_filtered w
                  (set_codes (filter (fun v => negb (vc_email v =? e))) w)
                  (fun v => negb (vc_email v =? e)) e' eq_refl).
    specialize (Hinv e'). lia.
Qed.

Lemma step_invariant (ev : Event) (w : World) :
  one_code_per_email w -> one_code_per_email (step ev w).
Proof. apply codes_change_invariant, step_codes_change. Qed.

Lemma run_invariant (evs : list Event) (w : World) :
  one_code_per_email w -> one_code_per_email (run evs w).
Proof.
  unfold run. revert w.
  induction evs as [|ev evs IH]; simpl; intros w Hinv; [exact Hinv|].
  apply IH, step_invariant, Hinv.
Qed.

(** C7. RESET_USER rejects, writing nothing, when no user has the
    supplied address.  Otherwise it draws a code, deletes the rows of
    the address and then inserts the new row, registers the deletion
    of that row after 550, and leaves exactly one live code for the
    address.  Hence "at most one live code per address" is kept by
    every request that carries its lookup arguments and by every
    expiry, one after the other. *)
Theorem reset_user_spec :
  (forall (e : string) (w : World),
      (forall u, In u (users w) -> email u <> e) ->
      rejected (outcome (RESET_USER (Some e)) w) = true
      /\ after (RESET_USER (Some e)) w = w)
  /\ (forall (e : string) (w : World) (u : User),
        In u (users w) -> email u = e ->
        let c := generateId (entropy w) in
        let w' := after (RESET_USER (Some e)) w in
        outcome (RESET_USER (Some e)) w = Resolved tt
        /\ codes w' = (filter (fun v => negb (vc_email v =? e)) (codes w)
                       ++ [mkVerifCode e c])%list
        /\ timers w' = (timers w ++ [mkTimer e c 550])%list
        /\ users w' = users w
        /\ live_codes e w' = 1)
  /\ (forall (ev : Event) (w : World),
        supplied ev = true ->
        one_code_per_email w -> one_code_per_email (step ev w))
  /\ (forall (evs : list Event) (w : World),
        forallb supplied evs = true ->
        one_code_per_email w -> one_code_per_email (run evs w)).
Proof.
  split; [|split; [|split]].
  - intros e w Hnone. unfold outcome, after. rewrite reset_user_unfold.
    destruct (find (by_email (Some e)) (users w)) as [u|] eqn:F; simpl; [|auto].
    apply find_some in F as [Hin Hu]. unfold by_email in Hu. simpl in Hu.
    apply String.eqb_eq in Hu. destruct (Hnone u Hin Hu).
  - intros e w u Hin He c w'. subst c w'.
    unfold outcome, after. rewrite reset_user_unfold.
    rewrite (@find_present _ (by_email (Some e)) (users w) u Hin).
    + simpl. repeat split.
      unfold live_codes. simpl. rewrite filter_app, length_app, filter_out_email.
      simpl. rewrite String.eqb_refl. reflexivity.
    + unfold by_email. simpl. subst e. apply String.eqb_refl.
  - intros ev w _. apply step_invariant.
  - intros evs w _. apply run_invariant.
Qed.
End ResetUser.

(* ------------------------------------------------------------------ *)
(** ** Rejections and writes *)

Section Rejections.
Context {E : Externals}.

(** C9. Whenever CREATE_USER, LOGIN, UPDATE_USER_PASSWORD,
    UPDATE_USER or RESET_USER rejects, the Users table and the
    VerificationCode table are as they were before the call. *)
Theorem rejection_writes_nothing :
  (forall (args : CreateUserArgs) (w : World),
      rejected (outcome (CREATE_USER args) w) = true ->
      same_tables w (after (CREATE_USER args) w))
  /\ (forall (args : LoginArgs) (w : World),
        rejected (outcome (LOGIN args) w) = true ->
        same_tables w (after (LOGIN args) w))
  /\ (forall (args : UpdatePasswordArgs) (w : World),
        rejected (outcome (UPDATE_USER_PASSWORD args) w) = true ->
        same_tables w (after (UPDATE_USER_PASSWORD args) w))
  /\ (forall (args : UpdateUserArgs) (w : World),
        rejected (outcome (UPDATE_USER args) w) = true ->
        same_tables w (after (UPDATE_USER args) w))
  /\ (forall (e : arg string) (w : World),
        rejected (outcome (RESET_USER e) w) = true ->
        same_tables w (after (RESET_USER e) w)).
Proof.
  unfold same_tables. repeat apply conj.
  - intros args w H. rewrite (create_user_rejected _ _ H). auto.
  - intros args w _. unfold after. rewrite login_unfold.
    branches; auto.
  - intros args w H. apply update_password_rejected, H.
  - intros args w H. rewrite (update_user_rejected _ _ H). auto.
  - intros e w. unfold outcome, after. rewrite reset_user_unfold.
    destruct (present _); simpl; [discriminate|auto].
Qed.
End Rejections.

(* ------------------------------------------------------------------ *)
(** ** Signing up, and then logging in *)

Lemma find_app_last (A : Type) (f : A -> bool) (l : list A) (a : A) :
  (forall x, In x l -> f x = false) ->
  find f (l ++ [a]) = if f a then Some a else None.
Proof.
  induction l as [|b l IH]; simpl; intros H; [reflexivity|].
  rewrite (H b (or_introl eq_refl)). apply IH. auto.
Qed.

Lemma existsb_false_in (A : Type) (f : A -> bool) (l : list A) :
  existsb f l = false -> forall x, In x l -> f x = false.
Proof.
  intros H x Hin. destruct (f x) eqn:F; [|reflexivity].
  rewrite <- H. symmetry. apply existsb_exists. eauto.
Qed.

Section SignupLogin.
Context {E : Externals}.

(** What passing the checks of CREATE_USER says about the arguments. *)
Lemma signup_accepts_inv (args : CreateUserArgs) (w : World) :
  signup_accepts args w = true ->
  exists e n p,
    ca_email args = Some e /\ ca_userName args = Some n
    /\ ca_password args = Some p
    /\ forall u, In u (users w) -> email u <> e /\ userName u <> n.
Proof.
  unfold signup_accepts. intros H.
  apply andb_prop in H as [H Htaken]. apply andb_prop in H as [H Hb].
  apply andb_prop in H as [H Hc]. apply andb_prop in H as [H Hp].
  apply andb_prop in H as [H Hn]. apply andb_prop in H as [He Hf].
  apply negb_true_iff in Htaken.
  destruct (ca_email args) as [e|] eqn:Ee; [|discriminate He].
  destruct (ca_userName args) as [n|] eqn:En; [|discriminate Hn].
  destruct (ca_password args) as [p|] eqn:Ep; [|discriminate Hp].
  exists e, n, p. split; [reflexivity|]. split; [reflexivity|].
  split; [reflexivity|]. intros u Hin.
  pose proof (existsb_false_in _ _ _ Htaken u Hin) as Hu.
  unfold taken_by in Hu. rewrite Ee, En in Hu.
  apply orb_false_elim in Hu as [Hu1 Hu2].
  split; apply where_eq_false; assumption.
Qed.

Lemma create_user_taken (args : CreateUserArgs) (w : World) :
  existsb (taken_by args) (users w) = true ->
  rejected (outcome (CREATE_USER args) w) = true
  /\ after (CREATE_USER args) w = w.
Proof.
  intros Htaken. unfold outcome, after.
  destruct (create_user_cases args w) as [[_ [msg ->]]|[Hacc _]]; simpl.
  - auto.
  - unfold signup_accepts in Hacc. rewrite Htaken in Hacc.
    rewrite andb_false_r in Hacc. discriminate.
Qed.

(** A signup whose fields pass the format checks, whose confirmation
    equals its password and whose address and user name are carried
    by no stored user resolves: it appends one row, made of the
    submitted fields, the generated key and the hash, and leaves the
    rows before it and the codes as they were. *)
Theorem signup_succeeds (args : CreateUserArgs) (w : World) :
  checkValidEmail (ca_email args) = true ->
  checkValidFullName (ca_fullName args) = true ->
  checkValidUserName (ca_userName args) = true ->
  checkValidPassword (ca_password args) = true ->
  loose_neq (ca_password args) (ca_passwordConfirmation args) = false ->
  checkValidBirthday (ca_birthday args) = true ->
  (forall u, In u (users w) ->
             where_eq (email u) (ca_email args) = false
             /\ where_eq (userName u) (ca_userName args) = false) ->
  outcome (CREATE_USER args) w = Resolved args
  /\ users (after (CREATE_USER args) w)
     = (users w ++ [mkUser (next_id w) (str (ca_fullName args))
                           (str (ca_userName args)) (str (ca_email args))
                           (bcrypt_hash (str (ca_password args)) (entropy w))
                           (str (ca_birthday args))
                           (truthyb (ca_isAdmin args))])%list
  /\ codes (after (CREATE_USER args) w) = codes w.
Proof.
  intros He Hf Hn Hp Hc Hb Hfresh.
  assert (Hacc : signup_accepts args w = true).
  { unfold signup_accepts. rewrite He, Hf, Hn, Hp, Hc, Hb. simpl.
    apply negb_true_iff.
    destruct (existsb (taken_by args) (users w)) eqn:X; [|reflexivity].
    apply existsb_exists in X as (u & Hin & Hu).
    unfold taken_by in Hu. destruct (Hfresh u Hin) as [H1 H2].
    rewrite H1, H2 in Hu. discriminate. }
  unfold outcome, after.
  destruct (create_user_cases args w) as [[Hrej _]|[_ ->]].
  - rewrite Hacc in Hrej. discriminate.
  - simpl. auto.
Qed.

(** After a signup has resolved, a second signup with the same address
    or with the same user name is rejected and writes nothing. *)
Theorem signup_twice_rejected (args args' r : CreateUserArgs) (w : World) :
  outcome (CREATE_USER args) w = Resolved r ->
  ca_email args' = ca_email args \/ ca_userName args' = ca_userName args ->
  let w' := after (CREATE_USER args) w in
  rejected (outcome (CREATE_USER args') w') = true
  /\ after (CREATE_USER args') w' = w'.
Proof.
  intros H Hsame w'. subst w'.
  apply create_user_resolved in H as (Hacc & _ & ->).
  apply signup_accepts_inv in Hacc as (e & n & p & He & Hn & _ & _).
  apply create_user_taken. simpl.
  rewrite existsb_app. apply orb_true_iff. right. simpl.
  unfold taken_by, new_user. simpl. rewrite He, Hn. simpl.
  destruct Hsame as [-> | ->]; [rewrite He | rewrite Hn]; simpl;
    rewrite String.eqb_refl, orb_false_r; auto using orb_true_r.
Qed.

(** Signup, then login.  With a bcrypt whose hashes compare equal to
    their password, the user a signup has stored can log in with the
    submitted password: by address when no earlier user name equals
    the address, by user name when no earlier address equals the user
    name.  The token carries the identity of the new row. *)
Theorem signup_then_login (args r : CreateUserArgs) (w : World) :
  bcrypt_sound E ->
  outcome (CREATE_USER args) w = Resolved r ->
  let w' := after (CREATE_USER args) w in
  let token := jwt_sign (mkClaims (next_id w) (str (ca_fullName args))
                                  (str (ca_email args)) (str (ca_userName args))
                                  (truthyb (ca_isAdmin args)))
                        (key_of w) "1d" in
  ((forall u, In u (users w) -> userName u <> str (ca_email args)) ->
   outcome (LOGIN (mkLoginArgs (ca_email args) (ca_password args))) w'
   = Resolved token)
  /\ ((forall u, In u (users w) -> email u <> str (ca_userName args)) ->
      outcome (LOGIN (mkLoginArgs (ca_userName args) (ca_password args))) w'
      = Resolved token).
Proof.
  intros Hsound H w' token. subst w' token.
  apply create_user_resolved in H as (Hacc & _ & ->).
  apply signup_accepts_inv in Hacc as (e & n & p & He & Hn & Hp & Hfresh).
  unfold outcome. rewrite !login_unfold. unfold new_user. simpl.
  rewrite He, Hn, Hp. simpl.
  assert (Hkey : (if truthy (ACCESS_TOKEN_SECRET w)
                  then str (ACCESS_TOKEN_SECRET w) else "secret_key") = key_of w).
  { unfold key_of, truthy, str.
    destruct (ACCESS_TOKEN_SECRET w) as [s|]; [|reflexivity].
    destruct (s =? ""); reflexivity. }
  split; intros Hother.
  - rewrite find_app_last.
    + unfold by_identifier. simpl.
      rewrite String.eqb_refl. simpl. rewrite Hsound, Hkey. reflexivity.
    + intros u Hin. unfold by_identifier. apply orb_false_iff.
      split; apply where_eq_false; [apply (Hfresh u Hin) | apply (Hother u Hin)].
  - rewrite find_app_last.
    + unfold by_identifier. simpl.
      rewrite String.eqb_refl, orb_true_r. simpl. rewrite Hsound, Hkey.
      reflexivity.
    + intros u Hin. unfold by_identifier. apply orb_false_iff.
      split; apply where_eq_false; [apply (Hother u Hin) | apply (Hfresh u Hin)].
Qed.

(** The key of a token.  Every token LOGIN returns is signed with
    ACCESS_TOKEN_SECRET when it is set and not empty, and with the
    fixed text secret_key otherwise; its lifetime is one day. *)
Theorem login_signing_key (args : LoginArgs) (w : World) (t : Token) :
  outcome (LOGIN args) w = Resolved t ->
  jwt_key t = match ACCESS_TOKEN_SECRET w with
              | Some s => if s =? "" then "secret_key" else s
              | None => "secret_key"
              end
  /\ jwt_expiresIn t = "1d".
Proof.
  unfold outcome. rewrite login_unfold.
  destruct (find _ (users w)) as [u|]; [|discriminate].
  destruct (la_password args) as [p|]; [|discriminate].
  destruct (bcrypt_compare p (password u)); [|discriminate].
  simpl. intros [= <-]. simpl. split; [|reflexivity].
  destruct (ACCESS_TOKEN_SECRET w) as [s|]; simpl; [|reflexivity].
  destruct (s =? ""); reflexivity.
Qed.

(** A signup sent from the form of the client never makes an
    administrator: when it resolves, the one row it adds has the
    admin flag off, whatever was typed. *)
Theorem form_signup_never_admin (f : SignUpForm) (w : World) (u : User) :
  In u (users (serve (SIGNUP_MUTATION f) w)) ->
  isAdmin u = true ->
  In u (users w).
Proof.
  simpl. unfold after.
  destruct (create_user_cases
              (mkCreateUserArgs (Some (f_fullName f)) (Some (f_userName f))
                 (Some (f_email f)) (Some (f_password f))
                 (Some (f_passwordConfirmation f)) (Some (f_birthday f)) None) w)
    as [[_ [msg ->]]|[_ ->]]; simpl.
  - auto.
  - intros Hin Hadm. apply in_app_or in Hin as [Hin|[<-|[]]]; [exact Hin|].
    discriminate Hadm.
Qed.
End SignupLogin.

(* ------------------------------------------------------------------ *)
(** ** The password reset, from the request to the login *)

Lemma existsb_filter_keeps (A : Type) (f q : A -> bool) (l : list A) :
  (forall x, f x = true -> q x = true) ->
  existsb f (filter q l) = existsb f l.
Proof.
  intros Hfq. induction l as [|a l IH]; simpl; [reflexivity|].
  destruct (q a) eqn:Q; simpl; rewrite IH; [reflexivity|].
  destruct (f a) eqn:F; [|reflexivity].
  apply Hfq in F. congruence.
Qed.

Lemma existsb_filter_drops (A : Type) (f q : A -> bool) (l : list A) :
  (forall x, f x = true -> q x = false) ->
  existsb f (filter q l) = false.
Proof.
  intros Hfq. induction l as [|a l IH]; simpl; [reflexivity|].
  destruct (q a) eqn:Q; simpl; [|exact IH].
  rewrite IH. destruct (f a) eqn:F; [|reflexivity].
  apply Hfq in F. congruence.
Qed.

Lemma find_agree (A : Type) (f g : A -> bool) (l : list A) :
  (forall x, In x l -> f x = g x) -> find f l = find g l.
Proof.
  induction l as [|a l IH]; simpl; intros H; [reflexivity|].
  rewrite (H a (or_introl eq_refl)), IH; auto.
Qed.

Section ResetFlow.
Context {E : Externals}.

Lemma check_code_ok (e c : arg string) (w : World) :
  outcome (CHECK_VERIFICATION_CODE e c) w
  = if existsb (code_is e c) (codes w)
    then Resolved "OK!" else Rejected "Unvalid code !".
Proof.
  unfold outcome. rewrite check_code_unfold, find_existsb. reflexivity.
Qed.

Lemma reset_user_codes (e : string) (w : World) (u : User) :
  In u (users w) -> email u = e ->
  RESET_USER (Some e) w =
    (Resolved tt,
     set_outbox (fun ms => (ms ++ [reset_mail e (generateId (entropy w))])%list)
       (set_timers (fun ts => (ts ++ [mkTimer e (generateId (entropy w)) 550])%list)
          (set_codes
             (fun cs => (filter (fun v => negb (vc_email v =? e)) cs
                         ++ [mkVerifCode e (generateId (entropy w))])%list)
             (set_entropy (S (entropy w)) w)))).
Proof.
  intros Hin He. rewrite reset_user_unfold.
  rewrite (find_present _ (by_email (Some e)) (users w) u Hin).
  - reflexivity.
  - unfold by_email. simpl. subst e. apply String.eqb_refl.
Qed.

(** After RESET_USER has served an address, the code it drew is the
    one code CHECK_VERIFICATION_CODE accepts for that address: every
    earlier code of the address is refused.  The answers for the other
    addresses are as before, and the message put in the outbox is
    addressed to the user and carries that code. *)
Theorem reset_then_check (e : string) (w : World) (u : User) :
  In u (users w) -> email u = e ->
  let c0 := generateId (entropy w) in
  let w' := after (RESET_USER (Some e)) w in
  (forall c : string,
      outcome (CHECK_VERIFICATION_CODE (Some e) (Some c)) w' = Resolved "OK!"
      <-> c = c0)
  /\ (forall e' c : string,
        e' <> e ->
        outcome (CHECK_VERIFICATION_CODE (Some e') (Some c)) w'
        = outcome (CHECK_VERIFICATION_CODE (Some e') (Some c)) w)
  /\ outbox w'
     = (outbox w
        ++ [mkMail "noreply@steamvision.app" e "Password reset verification code"
                   ("<p>Your verification code is <strong>" ++ c0
                    ++ "</strong></p>")])%list.
Proof.
  intros Hin He c0 w'. subst c0 w'.
  unfold after. rewrite (reset_user_codes e w u Hin He). cbn [snd].
  split; [|split; [|reflexivity]].
  - intros c. rewrite check_code_ok. simpl.
    rewrite existsb_app, existsb_filter_drops.
    + simpl. unfold code_is. simpl. rewrite String.eqb_refl. simpl.
      rewrite orb_false_r.
      destruct (generateId (entropy w) =? c) eqn:C.
      * apply String.eqb_eq in C. split; [auto|reflexivity].
      * apply String.eqb_neq in C. split; [discriminate|].
        intros ->. contradiction.
    + intros v Hv. unfold code_is in Hv. apply andb_prop in Hv as [Hv _].
      simpl in Hv. rewrite Hv. reflexivity.
  - intros e' c Hne. rewrite !check_code_ok. simpl.
    rewrite existsb_app, existsb_filter_keeps.
    + simpl. unfold code_is at 2. simpl.
      apply String.eqb_neq in Hne. rewrite String.eqb_sym, Hne. simpl.
      rewrite !orb_false_r. reflexivity.
    + intros v Hv. unfold code_is in Hv. apply andb_prop in Hv as [Hv _].
      simpl in Hv. apply String.eqb_eq in Hv. rewrite Hv.
      apply negb_true_iff, String.eqb_neq. exact Hne.
Qed.

(** The whole reset.  For a stored user, RESET_USER followed by
    UPDATE_USER_PASSWORD with the code just drawn and a strong
    password that is not the current one resolves; after it, with a
    sound bcrypt and no user name equal to the address under another
    address, LOGIN with the address and the new password returns a
    token for that user. *)
Theorem reset_update_login (e p : string) (w : World) (u : User) :
  bcrypt_sound E ->
  find (by_email (Some e)) (users w) = Some u ->
  (forall x, In x (users w) -> userName x = e -> email x = e) ->
  strong p = true ->
  bcrypt_compare p (password u) = false ->
  let w1 := after (RESET_USER (Some e)) w in
  let args := mkUpdatePasswordArgs (Some e) (Some p) (Some p)
                                   (Some (generateId (entropy w))) in
  let w2 := after (UPDATE_USER_PASSWORD args) w1 in
  outcome (UPDATE_USER_PASSWORD args) w1 = Resolved tt
  /\ exists t,
      outcome (LOGIN (mkLoginArgs (Some e) (Some p))) w2 = Resolved t
      /\ jwt_decode t = mkClaims (id u) (fullName u) (email u) (userName u)
                                 (isAdmin u).
Proof.
  intros Hsound Hu Hnames Hstrong Hold w1 args w2. subst w1 w2.
  pose proof (find_some _ _ Hu) as [Hin Hmail].
  unfold by_email in Hmail. simpl in Hmail. apply String.eqb_eq in Hmail.
  unfold outcome, after.
  rewrite (reset_user_codes e w u Hin Hmail). cbn [snd].
  match goal with
  | |- context [UPDATE_USER_PASSWORD args ?x] => set (w1 := x)
  end.
  assert (Hupd : UPDATE_USER_PASSWORD args w1 = (Resolved tt, password_updated args w1)).
  { rewrite update_password_unfold.
    change (users w1) with (users w).
    change (pa_email args) with (Some e). rewrite Hu.
    rewrite find_existsb.
    change (codes w1)
      with (filter (fun v => negb (vc_email v =? e)) (codes w)
            ++ [mkVerifCode e (generateId (entropy w))])%list.
    rewrite existsb_app. simpl.
    unfold code_is at 2. simpl. rewrite !String.eqb_refl. simpl.
    rewrite orb_true_r. simpl. rewrite Hold, Hstrong. reflexivity. }
  rewrite Hupd. cbn [fst snd].
  split; [reflexivity|].
  rewrite login_unfold.
  change (users (password_updated args w1))
    with (map (fun x => if by_email (Some e) x
                        then set_password (bcrypt_hash p (S (entropy w))) x
                        else x) (users w)).
  cbn [la_email la_password].
  assert (Hsame : forall x, In x (users w) ->
                            by_email (Some e) x = by_identifier (Some e) x).
  { intros x Hx. unfold by_identifier, by_email. simpl.
    destruct (email x =? e) eqn:M; [reflexivity|]. simpl.
    destruct (userName x =? e) eqn:N; [|reflexivity].
    apply String.eqb_eq in N. apply (Hnames x Hx) in N.
    apply String.eqb_neq in M. contradiction. }
  rewrite (map_ext_in _ (fun x => if by_identifier (Some e) x
                                  then set_password (bcrypt_hash p (S (entropy w))) x
                                  else x)).
  - rewrite (find_map_update (by_identifier (Some e))
               (set_password (bcrypt_hash p (S (entropy w)))) (users w) u).
    + cbn [password set_password]. rewrite Hsound.
      eexists. split; reflexivity.
    + reflexivity.
    + rewrite <- Hu. symmetry. apply find_agree. exact Hsame.
  - intros x Hx. rewrite (Hsame x Hx). reflexivity.
Qed.

(** A code serves one password change.  Once UPDATE_USER_PASSWORD,
    called with a supplied address and code, has resolved, any further
    UPDATE_USER_PASSWORD with the same code, for whatever supplied
    address and whatever passwords, is rejected and changes neither
    table. *)
Theorem update_password_no_replay
        (args args' : UpdatePasswordArgs) (e e' c : string)
        (w : World) (r : unit) :
  pa_email args = Some e ->
  pa_code args = Some c ->
  pa_email args' = Some e' ->
  pa_code args' = Some c ->
  outcome (UPDATE_USER_PASSWORD args) w = Resolved r ->
  let w' := after (UPDATE_USER_PASSWORD args) w in
  rejected (outcome (UPDATE_USER_PASSWORD args') w') = true
  /\ users (after (UPDATE_USER_PASSWORD args') w') = users w'
  /\ codes (after (UPDATE_USER_PASSWORD args') w') = codes w'.
Proof.
  intros He Hc He' Hc' H w'. subst w'.
  apply update_password_resolved in H as [_ ->].
  unfold outcome, after. rewrite update_password_unfold, Hc', <- Hc, code_gone.
  destruct (find _ (users (password_updated args w))); simpl; auto.
Qed.
End ResetFlow.

(* ------------------------------------------------------------------ *)
(** ** DELETE_USER *)

Section DeleteUser.
Context {E : Externals}.

End DeleteUser.

(* ------------------------------------------------------------------ *)
(** ** What the events keep *)

Lemma in_map_cond (c : User -> bool) (g : User -> User) (l : list User) (u' : User) :
  In u' (map (fun u => if c u then g u else u) l) ->
  exists u, In u l /\ (u' = u \/ u' = g u).
Proof.
  intros H. apply in_map_iff in H as (u & Hu & Hin).
  exists u. split; [exact Hin|]. destruct (c u); auto.
Qed.

Lemma NoDup_map_filter (A B : Type) (f : A -> B) (q : A -> bool) (l : list A) :
  NoDup (map f l) -> NoDup (map f (filter q l)).
Proof.
  induction l as [|a l IH]; simpl; intros H; [exact H|].
  inversion H as [|? ? Hnotin Hrest]; subst.
  destruct (q a); simpl; [|auto].
  constructor; [|auto].
  intros Hin. apply Hnotin.
  apply in_map_iff in Hin as (x & Hx & Hin). apply filter_In in Hin as [Hin _].
  apply in_map_iff. eauto.
Qed.

Lemma NoDup_snoc (A : Type) (l : list A) (a : A) :
  NoDup l -> ~ In a l -> NoDup (l ++ [a]).
Proof.
  induction l as [|b l IH]; simpl; intros H Hnotin.
  - constructor; [auto|constructor].
  - inversion H as [|? ? Hb Hrest]; subst. constructor.
    + intros Hin. apply in_app_or in Hin as [Hin|[->|[]]]; [auto|].
      apply Hnotin. auto.
    + apply IH; auto.
Qed.

Lemma filter_all (A : Type) (l : list A) : filter (fun _ => true) l = l.
Proof. induction l as [|a l IH]; simpl; [reflexivity|]. rewrite IH. reflexivity. Qed.

Section Kept.
Context {E : Externals}.

(** No mutation and no expiry changes the key or the admin flag of a
    stored user: every row after an event has the key and the flag of
    a row before it, or is the row a createUser has just inserted. *)
Theorem no_event_changes_admin (ev : Event) (w : World) (u' : User) :
  In u' (users (step ev w)) ->
  (exists u, In u (users w) /\ id u = id u' /\ isAdmin u = isAdmin u')
  \/ (exists args, ev = Request (createUser args) /\ u' = new_user args w).
Proof.
  assert (Hkept : In u' (users w) ->
                  exists u, In u (users w) /\ id u = id u' /\ isAdmin u = isAdmin u').
  { intros H. exists u'. auto. }
  assert (Hmap : forall (c : User -> bool) (g : User -> User),
             (forall u, id (g u) = id u /\ isAdmin (g u) = isAdmin u) ->
             In u' (map (fun u => if c u then g u else u) (users w)) ->
             exists u, In u (users w) /\ id u = id u' /\ isAdmin u = isAdmin u').
  { intros c g Hg H. apply in_map_cond in H as (u & Hin & [->| ->]).
    - exists u. auto.
    - exists u. destruct (Hg u) as [-> ->]. auto. }
  destruct ev as [[args|args|i|args|args|e|e c]|t]; simpl; unfold after.
  - destruct (create_user_cases args w) as [[_ [msg ->]]|[_ ->]]; simpl.
    + auto.
    + intros H. apply in_app_or in H as [H|[<-|[]]]; [auto|].
      right. exists args. auto.
  - rewrite login_unfold. branches; auto.
  - destruct i as [i|]; simpl; [|auto].
    intros H. apply filter_In in H as [H _]. auto.
  - rewrite update_password_unfold. branches; auto.
    intros H. left. revert H. apply Hmap. intros ?. split; reflexivity.
  - rewrite update_user_unfold. branches; auto;
      intros H; left; revert H; apply Hmap; intros ?; split; reflexivity.
  - rewrite reset_user_unfold. branches; auto.
  - rewrite check_code_unfold. simpl. auto.
  - simpl. auto.
Qed.

Lemma step_identities (ev : Event) (w : World) :
  keeps_identity ev = true ->
  (exists q,
      map email (users (step ev w)) = map email (filter q (users w))
      /\ map userName (users (step ev w)) = map userName (filter q (users w)))
  \/ (exists u,
        users (step ev w) = (users w ++ [u])%list
        /\ ~ In (email u) (map email (users w))
        /\ ~ In (userName u) (map userName (users w))).
Proof.
  assert (Hkept : forall w', users w' = users w ->
             exists q,
               map email (users w') = map email (filter q (users w))
               /\ map userName (users w') = map userName (filter q (users w))).
  { intros w' ->. exists (fun _ => true). rewrite filter_all. auto. }
  destruct ev as [[args|args|i|args|args|e|e c]|t]; simpl; unfold after; intros Hk.
  - destruct (create_user_cases args w) as [[_ [msg ->]]|[Hacc ->]]; simpl.
    + left. apply Hkept. reflexivity.
    + right. exists (new_user args w). split; [reflexivity|].
      apply signup_accepts_inv in Hacc as (e & n & p & He & Hn & _ & Hfresh).
      unfold new_user. simpl. rewrite He, Hn. simpl.
      split; intros Hin; apply in_map_iff in Hin as (u & Hu & Hin);
        destruct (Hfresh u Hin); contradiction.
  - left. apply Hkept. rewrite login_unfold. branches; reflexivity.
  - left. destruct i as [i|]; [|apply Hkept; reflexivity].
    exists (fun u => negb (where_id (id u) (Some i))). simpl. auto.
  - left. rewrite update_password_unfold.
    branches; try (apply Hkept; reflexivity).
    exists (fun _ => true). rewrite filter_all, !map_map.
    split; apply map_ext; intros x; destruct (by_email (pa_email args) x);
      reflexivity.
  - left. exists (fun _ => true). rewrite filter_all.
    apply andb_prop in Hk as [Hmail Hname]. apply negb_true_iff in Hmail, Hname.
    destruct (update_user_untouched args w) as (Hfields & _).
    split.
    + exact (Hfields FEmail Hmail).
    + exact (Hfields FUserName Hname).
  - left. apply Hkept. rewrite reset_user_unfold. branches; reflexivity.
  - left. apply Hkept. rewrite check_code_unfold. reflexivity.
  - left. apply Hkept. reflexivity.
Qed.

(** Distinct addresses and distinct user names are kept by every
    event except an UPDATE_USER that sets an address or a user name
    (which checks neither), hence by every history without one. *)
Theorem identities_stay_unique (evs : list Event) (w : World) :
  forallb keeps_identity evs = true ->
  unique_identities w ->
  unique_identities (run evs w).
Proof.
  unfold run. revert w.
  induction evs as [|ev evs IH]; simpl; intros w Hk Hinv; [exact Hinv|].
  apply andb_prop in Hk as [Hev Hk].
  apply IH; [exact Hk|].
  destruct Hinv as [Hmail Hname]. unfold unique_identities.
  destruct (step_identities ev w Hev) as [(q & -> & ->)|(u & -> & Hm & Hn)].
  - split; apply NoDup_map_filter; assumption.
  - rewrite !map_app. simpl. split; apply NoDup_snoc; assumption.
Qed.
End Kept.

(* ------------------------------------------------------------------ *)
(** ** A password changed through UPDATE_USER *)

Lemma find_map_same (f : User -> bool) (g : User -> User) (l : list User) :
  (forall x, f (g x) = f x) ->
  find f (map g l) = option_map g (find f l).
Proof.
  intros Hg. induction l as [|a l IH]; simpl; [reflexivity|].
  rewrite Hg. destruct (f a); [reflexivity|exact IH].
Qed.

Section UpdateUserLogin.
Context {E : Externals}.

Lemma no_field_patch (args : UpdateUserArgs) (h : option string) :
  no_field args = true ->
  profile_patch args h = mkPatch None None None h None.
Proof.
  unfold no_field, profile_patch, pick. intros H.
  apply andb_prop in H as [H H4]. apply andb_prop in H as [H H3].
  apply andb_prop in H as [H1 H2].
  apply negb_true_iff in H1, H2, H3, H4.
  rewrite H1, H2, H3, H4. reflexivity.
Qed.

(** When UPDATE_USER is given a password pair alone and the old
    password compares equal to the stored hash, the new password is
    the one LOGIN accepts afterwards (with a sound bcrypt, for the
    user the address identifies), and the token carries the same
    identity as before. *)
Theorem update_user_password_then_login
        (args : UpdateUserArgs) (w : World) (u : User) (o n : string) :
  bcrypt_sound E ->
  find (by_id (ua_id args)) (users w) = Some u ->
  find (by_identifier (Some (email u))) (users w) = Some u ->
  no_field args = true ->
  ua_oldPassword args = Some o ->
  ua_newPassword args = Some n ->
  o <> "" -> n <> "" -> o <> n ->
  bcrypt_compare o (password u) = true ->
  exists t,
    outcome (LOGIN (mkLoginArgs (Some (email u)) (Some n)))
            (after (UPDATE_USER args) w) = Resolved t
    /\ jwt_decode t = mkClaims (id u) (fullName u) (email u) (userName u)
                               (isAdmin u).
Proof.
  intros Hsound Hu Hlogin Hno Ho Hn Ho' Hn' Hne Hcmp.
  unfold outcome, after. rewrite update_user_unfold, Hu.
  unfold password_pair. rewrite Ho, Hn. simpl.
  apply String.eqb_neq in Ho', Hn', Hne. rewrite Ho', Hn', Hne, Hcmp. simpl.
  rewrite (no_field_patch args _ Hno).
  rewrite login_unfold. cbn [la_email la_password users user_updated set_users
                             set_entropy].
  rewrite find_map_same.
  - rewrite Hlogin. simpl.
    apply find_some in Hu as [_ Hid]. rewrite Hid. simpl.
    rewrite Hsound. eexists. split; reflexivity.
  - intros x. destruct (by_id (ua_id args) x); reflexivity.
Qed.
End UpdateUserLogin.

(* ================================================================== *)
(** * The properties at work on the sample world *)

Module Examples.
Import Sample.

(** C2 as stated fails: the same (email, code) is checked twice in a
    row and accepted both times. *)
Lemma check_code_accepts_twice :
  let e := Some "ada@example.org" in
  let c := Some code1 in
  outcome (CHECK_VERIFICATION_CODE e c) w1 = Resolved "OK!"
  /\ outcome (CHECK_VERIFICATION_CODE e c)
             (after (CHECK_VERIFICATION_CODE e c) w1) = Resolved "OK!".
Proof. split; reflexivity. Qed.

Lemma update_password_spec_witness :
  outcome (UPDATE_USER_PASSWORD (E := toy) new_password) w1 = Resolved tt
  /\ find (by_email (Some "ada@example.org"))
          (users (after (UPDATE_USER_PASSWORD (E := toy) new_password) w1))
     = Some (set_password (toy_hash "Analytical#2" 8) ada)
  /\ codes (after (UPDATE_USER_PASSWORD (E := toy) new_password) w1) = [].
Proof.
  pose proof (update_password_spec (E := toy) new_password w1
                ada (mkVerifCode "ada@example.org" code1)
                eq_refl eq_refl eq_refl) as H.
  cbv beta zeta in H.
  change (negb (matches (E := toy) (pa_oldPassword new_password) (password ada))
          && checkValidPassword (E := toy) (pa_newPassword new_password))
    with true in H.
  cbv iota in H.
  destruct H as (H1 & _ & H3 & H4 & _).
  split; [exact H1|]. split; [exact H3|exact H4].
Defined.

Lemma code_consumed_by_update_only_witness :
  outcome (CHECK_VERIFICATION_CODE (Some "ada@example.org") (Some code1))
          (Nat.iter 3 (after (CHECK_VERIFICATION_CODE (Some "ada@example.org")
                                                      (Some code1))) w1)
  = Resolved "OK!"
  /\ outcome (CHECK_VERIFICATION_CODE (Some "ada@example.org") (Some code1))
             (after (UPDATE_USER_PASSWORD (E := toy) new_password) w1)
     = Rejected "Unvalid code !".
Proof.
  destruct (code_consumed_by_update_only (E := toy)) as (_ & _ & Hagain & Hused).
  split.
  - apply (Hagain "ada@example.org" code1 w1 3). left. reflexivity.
  - exact (Hused new_password "ada@example.org" code1 w1 tt eq_refl eq_refl eq_refl).
Defined.

Lemma update_user_frame_witness :
  rejected (outcome (UPDATE_USER (E := toy) (no_change 1)) w0) = true
  /\ users (after (UPDATE_USER (E := toy) rename_ada) w0)
     = [mkUser 1 "Ada Lovelace" "countess" "ada@example.org"
               (toy_hash "Engine#1843" 0) "1815-12-10" false].
Proof.
  split.
  - exact (proj1 (proj1 (update_user_frame (E := toy) (no_change 1) w0
                           ada eq_refl) eq_refl eq_refl)).
  - exact (proj1 (proj2 (proj1 (proj2 (update_user_frame (E := toy) rename_ada w0
                                         ada eq_refl))
                           FUserName eq_refl eq_refl))).
Defined.

Lemma update_user_stores_unchecked_password_witness :
  weak (E := toy) (Some "a") = true
  /\ rejected (outcome (UPDATE_USER (E := toy) weaken_ada) w0) = false
  /\ exists u',
      find (by_id (Some 1)) (users (after (UPDATE_USER (E := toy) weaken_ada) w0))
      = Some u'
      /\ password u' = toy_hash "a" 7.
Proof.
  split; [reflexivity|].
  apply (update_user_stores_unchecked_password (E := toy) weaken_ada w0
           ada "Engine#1843" "a");
    try reflexivity; discriminate.
Defined.

Lemma signup_duplicate_rejected_witness :
  rejected (outcome (CREATE_USER (E := toy) signup_again) w0) = true
  /\ after (CREATE_USER (E := toy) signup_again) w0 = w0.
Proof.
  apply (signup_duplicate_rejected (E := toy) signup_again w0 ada).
  - left. reflexivity.
  - left. reflexivity.
Defined.

Lemma login_spec_witness :
  exists t,
    outcome (LOGIN (E := toy) login_ada) w0 = Resolved t
    /\ jwt_decode t = mkClaims 1 "Ada Lovelace" "ada@example.org" "ada" false
    /\ jwt_expiresIn t = "1d".
Proof.
  exact (proj2 (proj2 (proj1 (proj2 (login_spec (E := toy) login_ada w0))
                         ada eq_refl))).
Defined.

Lemma reset_user_spec_witness :
  outcome (RESET_USER (E := toy) (Some "ada@example.org")) w0 = Resolved tt
  /\ codes w1 = [mkVerifCode "ada@example.org" code1]
  /\ timers w1 = [mkTimer "ada@example.org" code1 550]
  /\ one_code_per_email
       (run (E := toy)
          [Request (resetUser (Some "ada@example.org"));
           Request (resetUser (Some "ada@example.org"));
           Expiry (mkTimer "ada@example.org" code1 550)] w0).
Proof.
  destruct (reset_user_spec (E := toy)) as (_ & Hreset & _ & Hrun).
  destruct (Hreset "ada@example.org" w0 ada (or_introl eq_refl) eq_refl)
    as (H1 & H2 & H3 & _).
  split; [exact H1|]. split; [exact H2|]. split; [exact H3|].
  apply Hrun; [reflexivity|]. intros e. unfold live_codes. simpl. lia.
Defined.

Lemma signup_echoes_arguments_witness :
  outcome (CREATE_USER (E := toy) signup_bob) w0 = Resolved signup_bob
  /\ ca_password signup_bob = Some "Granite!42"
  /\ password (new_user (E := toy) signup_bob w0) = toy_hash "Granite!42" 7.
Proof.
  split; [reflexivity|].
  destruct (signup_echoes_arguments (E := toy) signup_bob signup_bob w0 eq_refl)
    as (_ & p & Hp & _ & Hh & _).
  split; [reflexivity|].
  simpl in Hp. injection Hp as <-. exact Hh.
Defined.

Lemma rejection_writes_nothing_witness :
  rejected (outcome (UPDATE_USER_PASSWORD (E := toy) same_password) w1) = true
  /\ same_tables w1 (after (UPDATE_USER_PASSWORD (E := toy) same_password) w1).
Proof.
  split; [reflexivity|].
  exact (proj1 (proj2 (proj2 (rejection_writes_nothing (E := toy))))
           same_password w1 eq_refl).
Defined.

Lemma signup_admin_flag_witness :
  exists u,
    users (after (CREATE_USER (E := toy) signup_bob) w0) = (users w0 ++ [u])%list
    /\ isAdmin u = false.
Proof.
  exact (signup_admin_flag (E := toy) signup_bob signup_bob w0 eq_refl).
Defined.

Lemma toy_sound : bcrypt_sound toy.
Proof. intros p salt. simpl. apply String.eqb_refl. Defined.

Lemma signup_succeeds_witness :
  outcome (CREATE_USER (E := toy) signup_bob) w0 = Resolved signup_bob
  /\ users (after (CREATE_USER (E := toy) signup_bob) w0)
     = [ada; mkUser 2 "Bob Stone" "bob" "bob@example.org"
                    (toy_hash "Granite!42" 7) "1990-01-01" false]
  /\ codes (after (CREATE_USER (E := toy) signup_bob) w0) = [].
Proof.
  apply (signup_succeeds (E := toy) signup_bob w0); try reflexivity.
  intros u [<-|[]]. split; reflexivity.
Defined.

Lemma signup_twice_rejected_witness :
  rejected (outcome (CREATE_USER (E := toy) signup_bob)
                    (after (CREATE_USER (E := toy) signup_bob) w0)) = true.
Proof.
  exact (proj1 (signup_twice_rejected (E := toy) signup_bob signup_bob signup_bob
                  w0 eq_refl (or_introl eq_refl))).
Defined.

Lemma signup_then_login_witness :
  outcome (LOGIN (E := toy) (mkLoginArgs (Some "bob@example.org") (Some "Granite!42")))
          (after (CREATE_USER (E := toy) signup_bob) w0)
  = Resolved (jwt_sign (mkClaims 2 "Bob Stone" "bob@example.org" "bob" false)
                       "secret_key" "1d").
Proof.
  apply (proj1 (signup_then_login (E := toy) signup_bob signup_bob w0
                  toy_sound eq_refl)).
  intros u [<-|[]]. discriminate.
Defined.

Lemma login_signing_key_witness :
  exists t,
    outcome (LOGIN (E := toy) (mkLoginArgs (Some "root") (Some "Compiler!1952")))
            w_admin = Resolved t
    /\ jwt_key t = "s3cret" /\ jwt_expiresIn t = "1d".
Proof.
  eexists. split; [reflexivity|].
  exact (login_signing_key (E := toy)
           (mkLoginArgs (Some "root") (Some "Compiler!1952")) w_admin _ eq_refl).
Defined.

Lemma form_signup_never_admin_witness :
  In root (users (serve (E := toy) (SIGNUP_MUTATION bob_form) w_admin))
  /\ In root (users w_admin).
Proof.
  assert (H : In root (users (serve (E := toy) (SIGNUP_MUTATION bob_form) w_admin))).
  { left. reflexivity. }
  split; [exact H|].
  exact (form_signup_never_admin (E := toy) bob_form w_admin root H eq_refl).
Defined.

Lemma reset_then_check_witness :
  outcome (CHECK_VERIFICATION_CODE (Some "ada@example.org") (Some code1)) w1
  = Resolved "OK!"
  /\ outbox w1 = [reset_mail "ada@example.org" code1].
Proof.
  destruct (reset_then_check (E := toy) "ada@example.org" w0 ada
              (or_introl eq_refl) eq_refl) as (Hcheck & _ & Hmail).
  split; [|exact Hmail].
  apply (proj2 (Hcheck code1)). reflexivity.
Defined.

Lemma reset_update_login_witness :
  exists t,
    outcome (LOGIN (E := toy) (mkLoginArgs (Some "ada@example.org")
                                           (Some "Analytical#2")))
            (after (UPDATE_USER_PASSWORD (E := toy) new_password) w1) = Resolved t
    /\ jwt_decode t = mkClaims 1 "Ada Lovelace" "ada@example.org" "ada" false.
Proof.
  refine (proj2 (reset_update_login (E := toy) "ada@example.org" "Analytical#2"
                   w0 ada toy_sound eq_refl _ eq_refl eq_refl)).
  intros x [<-|[]]. discriminate.
Defined.

Lemma update_password_no_replay_witness :
  rejected (outcome (UPDATE_USER_PASSWORD (E := toy) new_password)
                    (after (UPDATE_USER_PASSWORD (E := toy) new_password) w1))
  = true.
Proof.
  exact (proj1 (update_password_no_replay (E := toy) new_password new_password
                  "ada@example.org" "ada@example.org" code1 w1 tt
                  eq_refl eq_refl eq_refl eq_refl eq_refl)).
Defined.


Lemma no_event_changes_admin_witness :
  exists u, In u (users w0) /\ id u = 1 /\ isAdmin u = false.
Proof.
  destruct (no_event_changes_admin (E := toy) (Request (updateUser rename_ada)) w0
              (set_field FUserName "countess" ada) (or_introl eq_refl))
    as [H|(args & Hev & _)].
  - exact H.
  - discriminate Hev.
Defined.

Lemma identities_stay_unique_witness :
  unique_identities
    (run (E := toy)
       [Request (createUser signup_bob);
        Request (resetUser (Some "ada@example.org"));
        Request (updateUserPassword new_password);
        Request (deleteUser (Some 1))] w0).
Proof.
  apply (identities_stay_unique (E := toy)); [reflexivity|].
  split; simpl; (constructor; [intros []|constructor]).
Defined.

Lemma update_user_password_then_login_witness :
  weak (E := toy) (Some "a") = true
  /\ exists t,
      outcome (LOGIN (E := toy) (mkLoginArgs (Some "ada@example.org") (Some "a")))
              (after (UPDATE_USER (E := toy) weaken_ada) w0) = Resolved t
      /\ jwt_decode t = mkClaims 1 "Ada Lovelace" "ada@example.org" "ada" false.
Proof.
  split; [reflexivity|].
  apply (update_user_password_then_login (E := toy) weaken_ada w0 ada
           "Engine#1843" "a" toy_sound);
    try reflexivity; discriminate.
Defined.
End Examples.
